(** * TIF2PDF: image catalogue and batch exporters

    A shallow embedding of [src/TIF2PDF.py] (class [ImageConverterGUI]):
    the image list and its list-box selection, the folder scan, and the two
    export loops ([convert_to_pdf], [convert_to_ppt]) together with the
    validation done by [start_conversion].

    Conventions.
    - Python [str] values are Rocq strings holding the UTF-8 bytes of the
      text; byte-wise lexicographic order on UTF-8 is code-point order, which
      is the order Python's [sorted] uses on [str].
    - Widgets that the code only writes to (log pane, status label, progress
      bar, dialogs, the convert button) are modelled by the ordered trace of
      what is written to them.
    - The outside world (file system, Pillow, PyMuPDF, python-pptx) is a
      record of the answers those calls give; a call that raises is a
      [Raise] result. *)

From Stdlib Require Import ZArith QArith Qround Ascii.
From Stdlib Require OrderedTypeEx.
From stdpp Require Import base option list sorting strings gmap.

Open Scope string_scope.
Open Scope list_scope.

(** ** Exceptions and results *)

Inductive exn :=
| IndexError
| OSError (path : string)            (* os.path.getsize on a missing file *)
| UnidentifiedImageError (path : string)  (* Image.open fails *)
| ImageDataError (path : string)     (* pixel data cannot be decoded *)
| JpegModeError (mode : string)      (* "cannot write mode ... as JPEG" *)
| InsertError (path : string)        (* insert_image / add_picture fails *)
| ZeroDivisionError
| SaveError (path : string).         (* document save fails *)

Inductive result (A : Type) :=
| Ok (a : A)
| Raise (e : exn).
Arguments Ok {A} a.
Arguments Raise {A} e.

Definition rbind {A B} (m : result A) (k : A → result B) : result B :=
  match m with
  | Ok a => k a
  | Raise e => Raise e
  end.

Notation "x ←ᵣ m ; k" := (rbind m (λ x, k))
  (at level 20, m at level 100, k at level 200, right associativity,
   format "x  ←ᵣ  m ;  '/' k").

(** ** The list box

    [tk.Listbox] in [EXTENDED] select mode.  Only the selection state of the
    rows is read back by the program, so a list box is the list of the
    selection flags of its rows, first row first. *)

Module Listbox.

Abbreviation t := (list bool).

Definition size (lb : t) : nat := length lb.

Fixpoint curselection_from (k : nat) (lb : t) : list nat :=
  match lb with
  | [] => []
  | b :: rest =>
      if b then k :: curselection_from (S k) rest
      else curselection_from (S k) rest
  end.

(** [curselection()]: the indices of the selected rows, ascending. *)
Definition curselection (lb : t) : list nat := curselection_from 0 lb.

(** [selection_set(i)]; Tk ignores an index past the last row. *)
Definition selection_set (i : nat) (lb : t) : t := <[i := true]> lb.

(** [selection_set(0, END)] and [selection_clear(0, END)]. *)
Definition selection_set_all (lb : t) : t := replicate (length lb) true.
Definition selection_clear_all (lb : t) : t := replicate (length lb) false.

(** [delete(0, END)] followed by one [insert(END, ...)] per row: fresh
    rows are not selected. *)
Definition rebuilt (rows : nat) : t := replicate rows false.

End Listbox.

(** ** What the program writes to the user interface *)

Inductive log_msg :=
| LogScanError                       (* invalid folder *)
| LogScanDone (found : nat)
| LogRemoved (count : nat)
| LogPdfStart (quality_mode : string)
| LogPdfItem (k total : nat) (filename quality_mode : string)
| LogPdfItemWarning (e : exn)
| LogPdfSaving
| LogPdfDone
| LogPdfSourceSize (bytes : Z)
| LogPdfSize (bytes : Z)
| LogPdfRatio (percent : Q)
| LogPptStart
| LogPptItem (k total : nat) (filename : string)
| LogPptSizeWarning (e : exn)
| LogPptInsertWarning (e : exn)
| LogPptSaving
| LogPptDone
| LogPptSlides (count : nat)
| LogPptSize (bytes : Z)
| LogConvertDone (output_file : string)
| LogConvertFailed (e : exn).

Inductive status :=
| StatusProcessing (filename : string)
| StatusSuccess
| StatusFailed.

Inductive dialog :=
| WarnNoImages
| WarnNoOutputPath
| InfoDone (output_file : string)
| ErrorFailed (e : exn).

Inductive ui_event :=
| EvLog (m : log_msg)
| EvStatus (s : status)
| EvProgress (percent : Q)
| EvDialog (d : dialog)
| EvConvertButton (enabled : bool).

(** ** The window state *)

Record gui := Gui {
  image_files : list string;
  path_entry : string;
  format_var : string;
  selected_format : string;
  output_entry : string;
  pdf_quality_var : string;
  ppt_layout_var : string;
  listbox : Listbox.t;
  ui_trace : list ui_event
}.

Definition set_image_files (v : list string) (g : gui) : gui :=
  Gui v (path_entry g) (format_var g) (selected_format g) (output_entry g)
      (pdf_quality_var g) (ppt_layout_var g) (listbox g) (ui_trace g).

Definition set_path_entry (v : string) (g : gui) : gui :=
  Gui (image_files g) v (format_var g) (selected_format g) (output_entry g)
      (pdf_quality_var g) (ppt_layout_var g) (listbox g) (ui_trace g).

Definition set_pdf_quality_var (v : string) (g : gui) : gui :=
  Gui (image_files g) (path_entry g) (format_var g) (selected_format g)
      (output_entry g) v (ppt_layout_var g) (listbox g) (ui_trace g).

Definition set_output_entry (v : string) (g : gui) : gui :=
  Gui (image_files g) (path_entry g) (format_var g) (selected_format g) v
      (pdf_quality_var g) (ppt_layout_var g) (listbox g) (ui_trace g).

Definition set_listbox (v : Listbox.t) (g : gui) : gui :=
  Gui (image_files g) (path_entry g) (format_var g) (selected_format g)
      (output_entry g) (pdf_quality_var g) (ppt_layout_var g) v (ui_trace g).

Definition emit (evs : list ui_event) (g : gui) : gui :=
  Gui (image_files g) (path_entry g) (format_var g) (selected_format g)
      (output_entry g) (pdf_quality_var g) (ppt_layout_var g) (listbox g)
      (ui_trace g ++ evs).

Definition log (m : log_msg) (g : gui) : gui := emit [EvLog m] g.

(** The list box shows one row per image file. *)
Definition rows_match (g : gui) : Prop :=
  Listbox.size (listbox g) = length (image_files g).

(** [update_listbox]: the rows are rebuilt from [image_files], which drops
    the selection.  The text of a row (name, size, dimensions) is display
    only and is not kept. *)
Definition update_listbox (g : gui) : gui :=
  set_listbox (Listbox.rebuilt (length (image_files g))) g.

Definition select_all (g : gui) : gui :=
  set_listbox (Listbox.selection_set_all (listbox g)) g.

Definition deselect_all (g : gui) : gui :=
  set_listbox (Listbox.selection_clear_all (listbox g)) g.

(** [reverse_selection]: every row that is not selected gets
    [selection_set]; nothing is cleared. *)
Definition reverse_selection (g : gui) : gui :=
  let all_items := seq 0 (Listbox.size (listbox g)) in
  let selected := Listbox.curselection (listbox g) in
  set_listbox
    (foldl (λ lb i, if bool_decide (i ∈ selected) then lb
                    else Listbox.selection_set i lb)
           (listbox g) all_items)
    g.

(** [a[i], a[j] = a[j], a[i]]: both reads come first and raise
    [IndexError] out of range. *)
Definition swap_items (i j : nat) (a : list string) : result (list string) :=
  match a !! j, a !! i with
  | Some aj, Some ai => Ok (<[j := ai]> (<[i := aj]> a))
  | _, _ => Raise IndexError
  end.

(** The loop of [move_up], over the selected indices in the given order. *)
Fixpoint move_up_loop (selected : list nat) (a : list string)
  : result (list string) :=
  match selected with
  | [] => Ok a
  | i :: rest =>
      if bool_decide (0 < i)%nat
      then a' ←ᵣ swap_items i (i - 1) a; move_up_loop rest a'
      else move_up_loop rest a
  end.

(** The loop of [move_down]; the caller passes [reversed(selected)]. *)
Fixpoint move_down_loop (order : list nat) (a : list string)
  : result (list string) :=
  match order with
  | [] => Ok a
  | i :: rest =>
      if bool_decide (Z.of_nat i < Z.of_nat (length a) - 1)%Z
      then a' ←ᵣ swap_items i (i + 1) a; move_down_loop rest a'
      else move_down_loop rest a
  end.

Definition reselect (targets : list nat) (lb : Listbox.t) : Listbox.t :=
  foldl (λ lb i, Listbox.selection_set i lb) lb targets.

Definition move_up (g : gui) : result gui :=
  let selected := Listbox.curselection (listbox g) in
  match selected with
  | [] => Ok g
  | first :: _ =>
      if bool_decide (first = 0%nat) then Ok g
      else
        a' ←ᵣ move_up_loop selected (image_files g);
        let g1 := update_listbox (set_image_files a' g) in
        Ok (set_listbox
              (reselect
                 ((λ i, if bool_decide (0 < i)%nat then (i - 1)%nat else i)
                    <$> selected)
                 (listbox g1))
              g1)
  end.

Definition move_down (g : gui) : result gui :=
  let selected := Listbox.curselection (listbox g) in
  match last selected with
  | None => Ok g
  | Some final =>
      if bool_decide (Z.of_nat final = Z.of_nat (length (image_files g)) - 1)%Z
      then Ok g
      else
        a' ←ᵣ move_down_loop (reverse selected) (image_files g);
        let g1 := update_listbox (set_image_files a' g) in
        Ok (set_listbox
              (reselect
                 ((λ i, if bool_decide
                             (Z.of_nat i < Z.of_nat (length a') - 1)%Z
                        then (i + 1)%nat else i)
                    <$> selected)
                 (listbox g1))
              g1)
  end.

(** [remove_selected]: deletes from the highest selected index down. *)
Definition remove_selected (g : gui) : gui :=
  let selected := Listbox.curselection (listbox g) in
  match selected with
  | [] => g
  | _ =>
      let a' :=
        foldl (λ a i, if bool_decide (i < length a)%nat then delete i a else a)
              (image_files g) (reverse selected) in
      log (LogRemoved (length selected))
          (update_listbox (set_image_files a' g))
  end.

(** ** Strings the way Python handles them *)

Definition chars (s : string) : list ascii := String.list_ascii_of_string s.
Definition of_chars (l : list ascii) : string := String.string_of_list_ascii l.

(** [str.isspace] on the ASCII range: TAB..CR, FS..US and the space.
    Whitespace outside ASCII is not recognised by this model. *)
Definition py_isspace (c : ascii) : bool :=
  let n := nat_of_ascii c in
  (Nat.leb 9 n && Nat.leb n 13) || (Nat.leb 28 n && Nat.leb n 32).

Fixpoint lstrip_chars (p : ascii → bool) (l : list ascii) : list ascii :=
  match l with
  | [] => []
  | c :: rest => if p c then lstrip_chars p rest else l
  end.

Definition rstrip_chars (p : ascii → bool) (l : list ascii) : list ascii :=
  reverse (lstrip_chars p (reverse l)).

(** [s.strip()] *)
Definition strip (s : string) : string :=
  of_chars (rstrip_chars py_isspace (lstrip_chars py_isspace (chars s))).

Definition is_char (c : ascii) : ascii → bool := λ d, bool_decide (d = c).

(** [p[p.rfind(c)+1:]] and [p[:p.rfind(c)+1]] *)
Definition after_last (c : ascii) (l : list ascii) : list ascii :=
  let r := reverse l in
  reverse (take (length r - length (lstrip_chars (λ d, negb (is_char c d)) r)) r).

Definition upto_last (c : ascii) (l : list ascii) : list ascii :=
  reverse (lstrip_chars (λ d, negb (is_char c d)) (reverse l)).

Definition str_endswith (suffix_ s : string) : bool :=
  bool_decide (chars suffix_ `suffix_of` chars s).

Definition str_le (a b : string) : Prop := String.leb a b = true.

#[global] Instance str_le_dec a b : Decision (str_le a b).
Proof. unfold str_le. apply _. Defined.

(** [sorted(list(set(xs)))]: the set keeps one copy of each element, in an
    order of its own; sorting a duplicate-free list by a total order gives
    the same list whatever that order was (lemma [py_sorted_unique]). *)
Definition py_set (xs : list string) : list string := remove_dups xs.
Definition py_sorted (xs : list string) : list string := merge_sort str_le xs.

Definition enumerate {A} (l : list A) : list (nat * A) :=
  zip (seq 0 (length l)) l.

(** [int(x)] on a rational: truncation toward zero. *)
Definition py_int (q : Q) : Z := Z.quot (Qnum q) (Zpos (Qden q)).

(** ** Path functions: [os.path] *)

Record os_path := OsPath {
  normcase : string → string;
  join : string → string → string;
  dirname : string → string;
  basename : string → string;
  splitext : string → string * string
}.

Module posixpath.

Definition slash : ascii := "/"%char.
Definition dot : ascii := "."%char.

Definition join (a b : string) : string :=
  match chars b with
  | c :: _ => if is_char slash c then b
              else if bool_decide (a = "") || str_endswith "/" a
                   then a +:+ b else a +:+ "/" +:+ b
  | [] => if bool_decide (a = "") || str_endswith "/" a
          then a else a +:+ "/"
  end.

Definition dirname (p : string) : string :=
  let head := upto_last slash (chars p) in
  if forallb (is_char slash) head then of_chars head
  else of_chars (rstrip_chars (is_char slash) head).

Definition basename (p : string) : string :=
  of_chars (after_last slash (chars p)).

Definition splitext (p : string) : string * string :=
  let name := after_last slash (chars p) in
  let stem := upto_last dot name in        (* through the last dot *)
  match reverse stem with
  | [] => (p, "")
  | _ :: rstem' =>
      let before := reverse rstem' in      (* what precedes the last dot *)
      if forallb (is_char dot) before then (p, "")
      else (of_chars (upto_last slash (chars p) ++ before),
            of_chars (dot :: after_last dot name))
  end.

Definition ops : os_path := OsPath (λ s, s) join dirname basename splitext.

End posixpath.

(** ** The outside world *)

Record image := Image {
  img_width : Z;
  img_height : Z;
  img_mode : string;
  img_data_ok : bool      (* the pixel data decodes when it is needed *)
}.

Record file := File {
  f_size : Z;                 (* os.path.getsize *)
  f_image : option image;     (* Image.open; None when it raises *)
  f_pdf_ok : bool;            (* PyMuPDF accepts the file in insert_image *)
  f_pptx_ok : bool            (* python-pptx accepts it in add_picture *)
}.

Record world := World {
  w_path : os_path;
  w_isdir : string → bool;
  w_listdir : string → list string;   (* names, in enumeration order *)
  w_formats : list string;   (* iteration order of the set SUPPORTED_FORMATS *)
  w_files : gmap string file;
  w_save : string → option Z
    (* saving the document under this path: its size on disk, or None when
       the save raises (unwritable path, full disk, a document that the
       library refuses to write) *)
}.

Definition SUPPORTED_FORMATS : list string :=
  [".jpg"; ".jpeg"; ".png"; ".bmp"; ".gif";
   ".tif"; ".tiff"; ".webp"; ".ico"; ".ppm"].

(** ** Scanning a folder *)

(** [glob._ishidden] *)
Definition ishidden (name : string) : bool :=
  match chars name with
  | c :: _ => is_char "."%char c
  | [] => false
  end.

(** [fnmatch] of a name against ['*' + ext]: the case-normalised name ends
    with [ext] (the patterns here are lower-case ASCII, which [normcase]
    leaves alone). *)
Definition fnmatch_star (w : world) (ext name : string) : bool :=
  str_endswith ext (normcase (w_path w) name).

(** [glob.glob(os.path.join(folder, '*' + ext))] for a folder name without
    glob metacharacters: the visible names of the directory that match,
    each joined to the directory part of the pattern. *)
Definition glob_dir (w : world) (folder ext : string) : string :=
  let pattern := join (w_path w) folder ("*" +:+ ext) in
  dirname (w_path w) pattern.

Definition glob_star (w : world) (folder ext : string) : list string :=
  let dir := glob_dir w folder ext in
  join (w_path w) dir <$>
      (filter (λ name, negb (ishidden name) && fnmatch_star w ext name = true)
              (w_listdir w dir)).

(** The three [continue] tests of the scan loop. *)
Definition skipped_by_filter (format_filter ext : string) : bool :=
  if bool_decide (format_filter = "仅PNG/JPG")
     && negb (bool_decide (ext ∈ [".jpg"; ".jpeg"; ".png"])) then true
  else if bool_decide (format_filter = "仅TIF")
          && negb (bool_decide (ext ∈ [".tif"; ".tiff"])) then true
  else if bool_decide (format_filter = "仅BMP")
          && negb (bool_decide (ext ∈ [".bmp"])) then true
  else false.

Definition scan_loop (w : world) (folder format_filter : string)
  : list string :=
  foldl (λ acc ext,
           if skipped_by_filter format_filter ext then acc
           else acc ++ glob_star w folder ext)
        [] (w_formats w).

Definition default_output (w : world) (g : gui) (first_img : string) : string :=
  let folder_name := fst (splitext (w_path w) (basename (w_path w) first_img)) in
  let output_dir := dirname (w_path w) first_img in
  let format_ext :=
    if bool_decide (selected_format g = "PDF") then ".pdf" else ".pptx" in
  join (w_path w) output_dir (folder_name +:+ "_合并" +:+ format_ext).

Definition scan_folder (w : world) (g : gui) : gui :=
  let folder := strip (path_entry g) in
  if bool_decide (folder = "") || negb (w_isdir w folder)
  then log LogScanError g
  else
    let files := py_sorted (py_set (scan_loop w folder (format_var g))) in
    let g1 := update_listbox (set_image_files files g) in
    let g2 := log (LogScanDone (length files)) g1 in
    match files with
    | [] => g2
    | first_img :: _ => set_output_entry (default_output w g first_img) g2
    end.

(** ** Pillow *)

(** [img.convert('RGB')]: the result has mode RGB and the same size; the
    pixel data has to be decoded for it. *)
Definition convert_rgb (filepath : string) (img : image) : result image :=
  if img_data_ok img
  then Ok (Image (img_width img) (img_height img) "RGB" true)
  else Raise (ImageDataError filepath).

(** What [img.save(buffer, format='JPEG', quality=..., optimize=True)]
    leaves in the buffer. *)
Record jpeg := Jpeg {
  jpeg_width : Z;
  jpeg_height : Z;
  jpeg_mode : string;
  jpeg_quality : option Z
}.

(** The modes Pillow's JPEG writer accepts (its RAWMODE table); any other
    mode raises "cannot write mode ... as JPEG". *)
Definition JPEG_RAWMODE : list string :=
  ["1"; "L"; "RGB"; "RGBX"; "CMYK"; "YCbCr"].

Definition save_jpeg (filepath : string) (img : image) (quality : option Z)
  : result jpeg :=
  if negb (img_data_ok img) then Raise (ImageDataError filepath)
  else if bool_decide (img_mode img ∈ JPEG_RAWMODE)
  then Ok (Jpeg (img_width img) (img_height img) (img_mode img) quality)
  else Raise (JpegModeError (img_mode img)).

(** Pillow modes that carry an alpha band. *)
Definition has_alpha (mode : string) : bool :=
  bool_decide (mode ∈ ["RGBA"; "LA"; "PA"; "RGBa"; "La"]).

(** ** The paged-document exporter *)

Inductive page_image :=
| FromFile (filepath : string)      (* insert_image(filename=...) *)
| FromStream (data : jpeg).         (* insert_image(stream=...) *)

Record page := Page {
  page_width : Z;
  page_height : Z;
  page_content : option page_image   (* None: the page is still empty *)
}.

(** The [if]/[elif]/[else] on the quality combo box. *)
Definition pdf_settings (quality_mode : string) : string * option Z :=
  if bool_decide (quality_mode = "无损（推荐）") then ("lossless", None)
  else if bool_decide (quality_mode = "中等质量") then ("compress", Some 60%Z)
  else ("compress", Some 30%Z).

(** The mode handed to the JPEG encoder, by the two mode tests below. *)
Definition normalized_mode (mode : string) : string :=
  if bool_decide (mode = "RGBA") then "RGB"
  else if bool_decide (mode = "CMYK") then "RGB"
  else mode.

(** The two mode tests before the JPEG encoding. *)
Definition normalize_mode (filepath : string) (img : image) : result image :=
  if bool_decide (img_mode img = "RGBA") then convert_rgb filepath img
  else if bool_decide (img_mode img = "CMYK") then convert_rgb filepath img
  else Ok img.

(** The body of the [try] of [convert_to_pdf] for one file: the pages of
    the document afterwards, and whether the body raised. *)
Definition pdf_try (f : file) (compression_type : string) (quality : option Z)
    (filepath : string) (pages : list page) : list page * result unit :=
  match f_image f with
  | None => (pages, Raise (UnidentifiedImageError filepath))
  | Some img =>
      let width := img_width img in
      let height := img_height img in
      if bool_decide (compression_type = "lossless") then
        if f_pdf_ok f
        then (pages ++ [Page width height (Some (FromFile filepath))], Ok ())
        else (pages ++ [Page width height None], Raise (InsertError filepath))
      else
        match normalize_mode filepath img with
        | Raise e => (pages, Raise e)
        | Ok img' =>
            match save_jpeg filepath img' quality with
            | Raise e => (pages, Raise e)
            | Ok img_data =>
                (pages ++ [Page width height (Some (FromStream img_data))],
                 Ok ())
            end
        end
  end.

(** [((i + 1) / total_files) * 100] *)
Definition progress_percent (i total_files : nat) : Q :=
  (inject_Z (Z.of_nat (i + 1)) / inject_Z (Z.of_nat total_files)) * 100.

Record pdf_state := PdfState {
  pdf_trace : list ui_event;
  pdf_pages : list page;
  pdf_total_size : Z
}.

(** A [for] loop whose body may let an exception escape, which ends the
    loop; a [continue] is a body that returns early. *)
Fixpoint for_each {S A : Type} (body : A → S → S * result unit)
    (items : list A) (s : S) : S * result unit :=
  match items with
  | [] => (s, Ok ())
  | x :: rest =>
      match body x s with
      | (s', Ok _) => for_each body rest s'
      | (s', Raise e) => (s', Raise e)
      end
  end.

(** The body of the loop of [convert_to_pdf]. *)
Definition pdf_body (w : world) (quality_mode compression_type : string)
    (quality : option Z) (total_files : nat) (item : nat * string)
    (s : pdf_state) : pdf_state * result unit :=
  let '(i, filepath) := item in
  let filename := basename (w_path w) filepath in
  match w_files w !! filepath with
  | None => (s, Raise (OSError filepath))
  | Some f =>
      let total_size := (pdf_total_size s + f_size f)%Z in
      let trace :=
        pdf_trace s
        ++ [EvLog (LogPdfItem (i + 1) total_files filename quality_mode);
            EvStatus (StatusProcessing filename)] in
      let '(pages, r) :=
        pdf_try f compression_type quality filepath (pdf_pages s) in
      match r with
      | Raise e =>
          (PdfState (trace ++ [EvLog (LogPdfItemWarning e)]) pages total_size,
           Ok ())
      | Ok _ =>
          (PdfState (trace ++ [EvProgress (progress_percent i total_files)])
                    pages total_size,
           Ok ())
      end
  end.

Definition compression_ratio (output_size total_size : Z) : Q :=
  if (0 <? total_size)%Z
  then (1 - inject_Z output_size / inject_Z total_size) * 100
  else 0.

Definition convert_to_pdf (w : world) (g : gui) (output_file : string)
  : list ui_event * result (list page) :=
  let quality_mode := pdf_quality_var g in
  let '(compression_type, quality) := pdf_settings quality_mode in
  let total_files := length (image_files g) in
  let '(s, r) :=
    for_each (pdf_body w quality_mode compression_type quality total_files)
      (enumerate (image_files g))
      (PdfState [EvLog (LogPdfStart quality_mode)] [] 0) in
  match r with
  | Raise e => (pdf_trace s, Raise e)
  | Ok _ =>
      let trace := pdf_trace s ++ [EvLog LogPdfSaving] in
      match w_save w output_file with
      | None => (trace, Raise (SaveError output_file))
      | Some output_size =>
          (trace ++ [EvLog LogPdfDone;
                     EvLog (LogPdfSourceSize (pdf_total_size s));
                     EvLog (LogPdfSize output_size);
                     EvLog (LogPdfRatio
                              (compression_ratio output_size (pdf_total_size s)))],
           Ok (pdf_pages s))
      end
  end.

(** ** The slide-deck exporter *)

(** python-pptx lengths are integers in English Metric Units; a plain
    integer given as a length is a number of EMU. *)
Definition EMUS_PER_INCH : Z := 914400.
Definition EMUS_PER_PT : Z := 12700.
Definition Inches (inches : Q) : Z := py_int (inches * inject_Z EMUS_PER_INCH).
Definition Pt (points : Q) : Z := py_int (points * inject_Z EMUS_PER_PT).

(** [Presentation()] opens the default template: 10 in by 7.5 in. *)
Definition slide_width : Z := 9144000.
Definition slide_height : Z := 6858000.

Record picture := Picture {
  pic_file : string;
  pic_left : Z;
  pic_top : Z;
  pic_width : Z;
  pic_height : Z
}.

(** A slide of the blank layout: empty, or holding the one picture. *)
Definition slide := option picture.

(** [min(a, b)] *)
Definition py_min (a b : Q) : Q := if Qle_bool a b then a else b.

(** The layout branches: [(left, top, img_width, img_height)].  The
    float arithmetic of the source is done here in exact rationals. *)
Definition ppt_geometry (ppt_layout : string) (original_width original_height : Z)
  : result (Z * Z * Z * Z) :=
  if bool_decide (ppt_layout = "全屏填充") then
    if bool_decide (original_width = 0%Z) || bool_decide (original_height = 0%Z)
    then Raise ZeroDivisionError
    else
      let ratio := py_min (inject_Z slide_width / inject_Z original_width)
                          (inject_Z slide_height / inject_Z original_height) in
      let img_width := py_int (inject_Z original_width * ratio) in
      let img_height := py_int (inject_Z original_height * ratio) in
      let left := py_int (inject_Z (slide_width - img_width) / 2) in
      let top := py_int (inject_Z (slide_height - img_height) / 2) in
      Ok (left, top, img_width, img_height)
  else if bool_decide (ppt_layout = "图片居中") then
    let img_width := original_width in
    let img_height := original_height in
    let left := py_int (inject_Z (slide_width - img_width) / 2) in
    let top := py_int (inject_Z (slide_height - img_height) / 2) in
    Ok (left, top, img_width, img_height)
  else
    let img_width := original_width in
    let img_height := original_height in
    Ok (Inches 0.5, Inches 0.5, img_width, img_height).

Record ppt_state := PptState {
  ppt_trace : list ui_event;
  ppt_slides : list slide
}.

(** The body of the loop of [convert_to_ppt]. *)
Definition ppt_body (w : world) (ppt_layout : string) (total_files : nat)
    (item : nat * string) (s : ppt_state) : ppt_state * result unit :=
  let '(i, filepath) := item in
  let filename := basename (w_path w) filepath in
  match w_files w !! filepath with
  | None => (s, Raise (OSError filepath))
  | Some f =>
      let trace :=
        ppt_trace s
        ++ [EvLog (LogPptItem (i + 1) total_files filename);
            EvStatus (StatusProcessing filename)] in
      match f_image f with
      | None =>
          (PptState
             (trace ++ [EvLog (LogPptSizeWarning
                                 (UnidentifiedImageError filepath))])
             (ppt_slides s),
           Ok ())
      | Some img =>
          let slides := ppt_slides s ++ [None] in
          match ppt_geometry ppt_layout (img_width img) (img_height img) with
          | Raise e => (PptState trace slides, Raise e)
          | Ok (left_, top_, img_width, img_height) =>
              if f_pptx_ok f then
                (PptState
                   (trace ++ [EvProgress (progress_percent i total_files)])
                   (ppt_slides s
                    ++ [Some (Picture filepath left_ top_
                                      img_width img_height)]),
                 Ok ())
              else
                (PptState
                   (trace ++ [EvLog (LogPptInsertWarning
                                       (InsertError filepath))])
                   slides,
                 Ok ())
          end
      end
  end.

Definition convert_to_ppt (w : world) (g : gui) (output_file : string)
  : list ui_event * result (list slide) :=
  let total_files := length (image_files g) in
  let ppt_layout := ppt_layout_var g in
  let '(s, r) :=
    for_each (ppt_body w ppt_layout total_files) (enumerate (image_files g))
      (PptState [EvLog LogPptStart] []) in
  match r with
  | Raise e => (ppt_trace s, Raise e)
  | Ok _ =>
      let trace := ppt_trace s ++ [EvLog LogPptSaving] in
      match w_save w output_file with
      | None => (trace, Raise (SaveError output_file))
      | Some output_size =>
          (trace ++ [EvLog LogPptDone;
                     EvLog (LogPptSlides total_files);
                     EvLog (LogPptSize output_size)],
           Ok (ppt_slides s))
      end
  end.

(** ** Starting a conversion *)

Inductive document :=
| PdfDocument (pages : list page)
| PptxDocument (slides : list slide).

(** [convert_images]: the body of the worker thread.  The second
    component is the document written to [output_file], if any. *)
Definition convert_images (w : world) (g : gui) (output_file : string)
  : gui * option document :=
  let format_type := selected_format g in
  let '(trace, r) :=
    if bool_decide (format_type = "PDF") then
      let '(t, r) := convert_to_pdf w g output_file in
      (t, match r with Ok p => Ok (PdfDocument p) | Raise e => Raise e end)
    else
      let '(t, r) := convert_to_ppt w g output_file in
      (t, match r with Ok s => Ok (PptxDocument s) | Raise e => Raise e end) in
  match r with
  | Ok doc =>
      (emit (trace ++ [EvLog (LogConvertDone output_file);
                       EvStatus StatusSuccess;
                       EvDialog (InfoDone output_file);
                       EvConvertButton true]) g,
       Some doc)
  | Raise e =>
      (emit (trace ++ [EvLog (LogConvertFailed e);
                       EvStatus StatusFailed;
                       EvDialog (ErrorFailed e);
                       EvConvertButton true]) g,
       None)
  end.

(** [start_conversion]: the new window state and, when a worker thread is
    started, the argument it is started with. *)
Definition start_conversion (g : gui) : gui * option string :=
  match image_files g with
  | [] => (emit [EvDialog WarnNoImages] g, None)
  | _ :: _ =>
      let output_file := strip (output_entry g) in
      if bool_decide (output_file = "")
      then (emit [EvDialog WarnNoOutputPath] g, None)
      else (emit [EvConvertButton false; EvProgress 0] g, Some output_file)
  end.

(** A click on the convert button, with the worker thread run to its end. *)
Definition click_convert (w : world) (g : gui) : gui * option document :=
  match start_conversion g with
  | (g1, Some output_file) => convert_images w g1 output_file
  | (g1, None) => (g1, None)
  end.

(** ** What one pass of an export loop adds

    The loop bodies only append to the trace and to the document, so a
    pass is described by what it appends to an empty state. *)

Definition progress_events (trace : list ui_event) : list Q :=
  omap (λ e, match e with EvProgress percent => Some percent | _ => None end)
       trace.

Definition pdf_item_events (w : world) (quality_mode compression_type : string)
    (quality : option Z) (total_files : nat) (item : nat * string)
  : list ui_event :=
  pdf_trace (fst (pdf_body w quality_mode compression_type quality total_files
                           item (PdfState [] [] 0))).

Definition pdf_item_pages (w : world) (compression_type : string)
    (quality : option Z) (filepath : string) : list page :=
  pdf_pages (fst (pdf_body w "" compression_type quality 0 (0%nat, filepath)
                           (PdfState [] [] 0))).

Definition pdf_item_size (w : world) (filepath : string) : Z :=
  pdf_total_size (fst (pdf_body w "" "" None 0 (0%nat, filepath)
                                (PdfState [] [] 0))).

Definition ppt_item_events (w : world) (ppt_layout : string)
    (total_files : nat) (item : nat * string) : list ui_event :=
  ppt_trace (fst (ppt_body w ppt_layout total_files item (PptState [] []))).

Definition ppt_item_slides (w : world) (ppt_layout : string)
    (filepath : string) : list slide :=
  ppt_slides (fst (ppt_body w ppt_layout 0 (0%nat, filepath) (PptState [] []))).

(** The file is there and, if it opens as an image, has positive pixel
    dimensions. *)
Definition file_ready (w : world) (filepath : string) : bool :=
  match w_files w !! filepath with
  | None => false
  | Some f =>
      match f_image f with
      | None => true
      | Some img => (0 <? img_width img)%Z && (0 <? img_height img)%Z
      end
  end.

(** The [try] of the paged exporter goes through for this file. *)
Definition pdf_entry_ok (w : world) (quality_mode : string)
    (filepath : string) : bool :=
  match w_files w !! filepath with
  | None => false
  | Some f =>
      match snd (pdf_try f (fst (pdf_settings quality_mode))
                         (snd (pdf_settings quality_mode)) filepath []) with
      | Ok _ => true
      | Raise _ => false
      end
  end.

(** Both [try] blocks of the slide exporter go through for this file. *)
Definition ppt_entry_ok (w : world) (filepath : string) : bool :=
  match w_files w !! filepath with
  | None => false
  | Some f =>
      match f_image f with
      | None => false
      | Some _ => f_pptx_ok f
      end
  end.

(** The page the recompressing branch makes of an image that it can
    encode. *)
Definition recompressed_page (quality : option Z) (img : image) : page :=
  Page (img_width img) (img_height img)
       (Some (FromStream (Jpeg (img_width img) (img_height img)
                               (normalized_mode (img_mode img)) quality))).

(** ** The wording of the specification, for comparison *)

(** [reverseSelection(selected, totalCount)]: "returns the complementary
    index set". *)
Definition spec_reverseSelection (selected : list nat) (totalCount : nat)
  : list nat :=
  filter (λ i, i ∉ selected) (seq 0 totalCount).

(** [reorderUp]: "move each selected index one slot toward the front";
    an index at the boundary stays "while the other selected indices still
    move". *)
Definition spec_reorderUp_moves (g g' : gui) : Prop :=
  ∀ i, i ∈ Listbox.curselection (listbox g) → (0 < i)%nat →
       image_files g' !! (i - 1)%nat = image_files g !! i.

(** [scan]: "files ... whose extension is in a fixed supported set
    (case-insensitive)", "optionally narrowed to a named subset". *)
Definition ascii_lower (c : ascii) : ascii :=
  let n := nat_of_ascii c in
  if Nat.leb 65 n && Nat.leb n 90 then ascii_of_nat (n + 32) else c.

Definition str_lower (s : string) : string := of_chars (ascii_lower <$> chars s).

Definition spec_extension_supported (name : string) : bool :=
  bool_decide (str_lower (snd (posixpath.splitext name)) ∈ SUPPORTED_FORMATS).

Definition spec_scan_finds_supported (w : world) (g : gui) : Prop :=
  ∀ ext name,
    ext ∈ SUPPORTED_FORMATS →
    name ∈ w_listdir w (glob_dir w (strip (path_entry g)) ext) →
    spec_extension_supported name = true →
    join (w_path w) (glob_dir w (strip (path_entry g)) ext) name
      ∈ image_files (scan_folder w g).

Definition spec_named_subset (format_filter : string) : list string :=
  if bool_decide (format_filter = "仅PNG/JPG") then [".jpg"; ".jpeg"; ".png"]
  else if bool_decide (format_filter = "仅TIF") then [".tif"; ".tiff"]
  else if bool_decide (format_filter = "仅BMP") then [".bmp"]
  else SUPPORTED_FORMATS.

(** ProgressEvent: "emitted once per processed entry", "success or skip",
    "0-based to total-1". *)
Definition spec_progress_per_entry (total : nat) (trace : list ui_event)
  : Prop :=
  progress_events trace = (λ i, progress_percent i total) <$> seq 0 total.

(** Recompress: every embedded image is "normalized to a 3-channel color
    representation" before it is encoded. *)
Definition spec_recompress_rgb (pages : list page) : Prop :=
  Forall (λ pg, ∃ data, page_content pg = Some (FromStream data)
                        ∧ jpeg_mode data = "RGB") pages.

(** Blank layout: "native pixel-to-point size", one point per pixel. *)
Definition spec_blank_size (img : image) : Z * Z :=
  (Pt (inject_Z (img_width img)), Pt (inject_Z (img_height img))).

(** ** Sample windows *)

Definition sample_gui (files : list string) (selection : list bool) : gui :=
  Gui files "/p" "所有图片" "PDF" "/p/out.pdf" "无损（推荐）" "空白页" selection [].

(** A POSIX machine on which [/p] is the only directory. *)
Definition sample_world (listing : list string) (files : gmap string file)
  : world :=
  World posixpath.ops
        (λ d, bool_decide (d = "/p"))
        (λ d, if bool_decide (d = "/p") then listing else [])
        SUPPORTED_FORMATS files (λ _, Some 1024%Z).

(** Three files, of which the second either does not open as an image
    ([batch_second_unreadable]) or opens but is refused when it is embedded
    ([batch_second_rejected]). *)
Definition batch_paths : list string := ["/p/a.png"; "/p/b.png"; "/p/c.png"].

Definition batch_second_unreadable : world :=
  sample_world []
    (list_to_map
       [("/p/a.png", File 100 (Some (Image 40 30 "RGB" true)) true true);
        ("/p/b.png", File 50 None true true);
        ("/p/c.png", File 70 (Some (Image 10 20 "RGB" true)) true true)]).

Definition batch_second_rejected : world :=
  sample_world []
    (list_to_map
       [("/p/a.png", File 100 (Some (Image 40 30 "RGB" true)) true true);
        ("/p/b.png", File 50 (Some (Image 8 8 "RGB" true)) false false);
        ("/p/c.png", File 70 (Some (Image 10 20 "RGB" true)) true true)]).

Definition batch_gui : gui := sample_gui batch_paths [false; false; false].

(** One grey-scale image and one with an alpha channel. *)
Definition grey_and_alpha : world :=
  sample_world []
    (list_to_map
       [("/p/a.png", File 100 (Some (Image 40 30 "L" true)) true true);
        ("/p/b.png", File 50 (Some (Image 8 8 "RGBA" true)) true true)]).

Definition grey_and_alpha_gui : gui :=
  set_pdf_quality_var "中等质量"
    (sample_gui ["/p/a.png"; "/p/b.png"] [false; false]).

(** One image of 4000 by 3000 pixels. *)
Definition photo : image := Image 4000 3000 "RGB" true.

Definition one_photo : world :=
  sample_world [] (list_to_map [("/p/a.png", File 100 (Some photo) true true)]).

Definition one_photo_gui : gui := sample_gui ["/p/a.png"] [false].

(** ** Views of the state used by further properties *)

Definition set_format_var (v : string) (g : gui) : gui :=
  Gui (image_files g) (path_entry g) v (selected_format g) (output_entry g)
      (pdf_quality_var g) (ppt_layout_var g) (listbox g) (ui_trace g).

Definition set_selected_format (v : string) (g : gui) : gui :=
  Gui (image_files g) (path_entry g) (format_var g) v (output_entry g)
      (pdf_quality_var g) (ppt_layout_var g) (listbox g) (ui_trace g).

(** The entries whose row is not selected, in order; an entry without a
    row is not selected. *)
Fixpoint unselected_entries (lb : Listbox.t) (a : list string) : list string :=
  match lb, a with
  | [], _ => a
  | _ :: _, [] => []
  | b :: lb', x :: a' =>
      if b then unselected_entries lb' a' else x :: unselected_entries lb' a'
  end.

(** The page the lossless branch adds for a file: none when the file is
    missing or does not open; otherwise a page of the pixel size, holding
    the file itself when PyMuPDF accepts it and left empty when not. *)
Definition lossless_page (w : world) (filepath : string) : option page :=
  match w_files w !! filepath with
  | None => None
  | Some f =>
      match f_image f with
      | None => None
      | Some img =>
          Some (Page (img_width img) (img_height img)
                     (if f_pdf_ok f then Some (FromFile filepath) else None))
      end
  end.

(** The slide added for a file under the layouts that keep the pixel
    counts: none when the file is missing or does not open; otherwise a
    slide holding the picture when python-pptx accepts it, empty when not. *)
Definition opens (w : world) (filepath : string) : bool :=
  match w_files w !! filepath with
  | None => false
  | Some f => bool_decide (is_Some (f_image f))
  end.

Definition picture_files (slides : list slide) : list string :=
  omap (λ s : slide, pic_file <$> s) slides.

Definition file_size (w : world) (filepath : string) : Z :=
  match w_files w !! filepath with
  | None => 0
  | Some f => f_size f
  end.

(** The "(k/total)" pairs of the per-entry log lines of a trace, and its
    warnings. *)
Definition item_numbers (trace : list ui_event) : list (nat * nat) :=
  omap (λ e, match e with
             | EvLog (LogPdfItem k total _ _) => Some (k, total)
             | EvLog (LogPptItem k total _) => Some (k, total)
             | _ => None
             end) trace.

Definition warnings (trace : list ui_event) : list exn :=
  omap (λ e, match e with
             | EvLog (LogPdfItemWarning e) => Some e
             | EvLog (LogPptSizeWarning e) => Some e
             | EvLog (LogPptInsertWarning e) => Some e
             | _ => None
             end) trace.

(** * Properties *)

(** ** The selection of a list box *)

Section Selection.

Implicit Types (lb : Listbox.t) (i j k : nat).

Lemma elem_of_curselection_from k lb i :
  i ∈ Listbox.curselection_from k lb ↔ (k ≤ i)%nat ∧ lb !! (i - k)%nat = Some true.
Proof.
  revert k. induction lb as [|b rest IH]; intros k; simpl.
  - rewrite elem_of_nil. split; [done|by intros [_ ?]].
  - destruct b; [rewrite elem_of_cons|]; rewrite IH; split.
    + intros [->|[Hle Hl]].
      * split; [lia|]. by rewrite Nat.sub_diag.
      * split; [lia|]. by replace (i - k)%nat with (S (i - S k)) by lia.
    + intros [Hle Hl]. destruct (decide (i = k)) as [|Hne]; [by left|right].
      split; [lia|]. by replace (i - k)%nat with (S (i - S k)) in Hl by lia.
    + intros [Hle Hl]. split; [lia|].
      by replace (i - k)%nat with (S (i - S k)) by lia.
    + intros [Hle Hl]. destruct (decide (i = k)) as [->|Hne].
      * by rewrite Nat.sub_diag in Hl.
      * split; [lia|].
        by replace (i - k)%nat with (S (i - S k)) in Hl by lia.
Qed.

Lemma elem_of_curselection lb i :
  i ∈ Listbox.curselection lb ↔ lb !! i = Some true.
Proof.
  unfold Listbox.curselection. rewrite elem_of_curselection_from.
  rewrite Nat.sub_0_r. split; [by intros [_ ?]|]. split; [lia|done].
Qed.

Lemma curselection_lt lb i :
  i ∈ Listbox.curselection lb → (i < Listbox.size lb)%nat.
Proof. rewrite elem_of_curselection. apply lookup_lt_Some. Qed.

Lemma curselection_from_sorted k lb :
  StronglySorted lt (Listbox.curselection_from k lb).
Proof.
  revert k. induction lb as [|b rest IH]; intros k; simpl; [constructor|].
  destruct b; [|apply IH]. constructor; [apply IH|].
  apply Forall_forall. intros i Hi.
  apply elem_of_curselection_from in Hi. lia.
Qed.

Lemma curselection_sorted lb : StronglySorted lt (Listbox.curselection lb).
Proof. apply curselection_from_sorted. Qed.

Lemma reselect_length targets lb :
  length (reselect targets lb) = length lb.
Proof.
  unfold reselect. revert lb. induction targets as [|t ts IH]; intros lb; [done|].
  simpl. rewrite IH. apply length_insert.
Qed.

Lemma reselect_keeps targets lb i :
  lb !! i = Some true → reselect targets lb !! i = Some true.
Proof.
  unfold reselect. revert lb. induction targets as [|t ts IH]; intros lb Hi; [done|].
  simpl. apply IH. unfold Listbox.selection_set.
  destruct (decide (t = i)) as [->|Hne].
  - apply list_lookup_insert_eq. by eapply lookup_lt_Some.
  - by rewrite list_lookup_insert_ne.
Qed.

Lemma reselect_selects targets lb i :
  i ∈ targets → (i < length lb)%nat → reselect targets lb !! i = Some true.
Proof.
  unfold reselect. revert lb. induction targets as [|t ts IH]; intros lb Hin Hlt.
  - by apply elem_of_nil in Hin.
  - simpl. apply elem_of_cons in Hin as [->|Hin].
    + apply (reselect_keeps ts). unfold Listbox.selection_set.
      by apply list_lookup_insert_eq.
    + apply IH; [done|]. unfold Listbox.selection_set. by rewrite length_insert.
Qed.

(** Whatever was selected, [reverse_selection] leaves every row selected. *)
Lemma reverse_selection_selects_all (g : gui) :
  listbox (reverse_selection g) = replicate (Listbox.size (listbox g)) true.
Proof.
  unfold reverse_selection. simpl.
  set (sel := Listbox.curselection (listbox g)).
  set (step := λ (lb : Listbox.t) (i : nat),
                 if bool_decide (i ∈ sel) then lb else Listbox.selection_set i lb).
  assert (Hinv : ∀ (is_ : list nat) lb,
    length lb = length (listbox g) →
    (∀ j, listbox g !! j = Some true → lb !! j = Some true) →
    length (foldl step lb is_) = length (listbox g) ∧
    (∀ j, listbox g !! j = Some true → foldl step lb is_ !! j = Some true) ∧
    (∀ j, j ∈ is_ → (j < length (listbox g))%nat →
          foldl step lb is_ !! j = Some true)).
  { induction is_ as [|i is_ IH]; intros lb Hlen Hkeep; simpl.
    - split_and!; [done..|]. intros j Hj. by apply elem_of_nil in Hj.
    - assert (Hlen' : length (step lb i) = length (listbox g)).
      { unfold step. case_bool_decide; [done|].
        unfold Listbox.selection_set. by rewrite length_insert. }
      assert (Hkeep' : ∀ j, listbox g !! j = Some true → step lb i !! j = Some true).
      { intros j Hj. unfold step. case_bool_decide; [by apply Hkeep|].
        unfold Listbox.selection_set. destruct (decide (i = j)) as [->|Hne].
        - apply list_lookup_insert_eq. rewrite Hlen. by eapply lookup_lt_Some.
        - rewrite list_lookup_insert_ne; [|done]. by apply Hkeep. }
      destruct (IH _ Hlen' Hkeep') as (H1 & H2 & H3).
      split_and!; [done..|]. intros j Hj Hlt.
      apply elem_of_cons in Hj as [->|Hj]; [|by apply H3].
      assert (Hi : step lb i !! i = Some true).
      { unfold step. case_bool_decide as Hsel.
        - apply Hkeep. by apply elem_of_curselection.
        - unfold Listbox.selection_set. apply list_lookup_insert_eq. lia. }
      clear -Hi Hlen'. revert Hi. generalize (step lb i). clear Hlen'.
      induction is_ as [|k ks IHk]; intros lb' Hi; [done|]. simpl. apply IHk.
      unfold step at 1. case_bool_decide; [done|].
      unfold Listbox.selection_set. destruct (decide (k = i)) as [->|Hne].
      + apply list_lookup_insert_eq. by eapply lookup_lt_Some.
      + by rewrite list_lookup_insert_ne. }
  destruct (Hinv (seq 0 (Listbox.size (listbox g))) (listbox g) eq_refl
              (λ _ H, H)) as (Hlen & _ & Hall).
  apply list_eq. intros j. unfold Listbox.size in *.
  destruct (decide (j < length (listbox g))%nat) as [Hlt|Hge].
  - rewrite lookup_replicate_2 by done. apply Hall; [|done].
    apply elem_of_seq. lia.
  - rewrite (proj1 (lookup_replicate_None _ _ _)) by lia.
    apply lookup_ge_None. lia.
Qed.

End Selection.

(** ** Moving entries up and down *)

Section Reorder.

Implicit Types (a : list string) (sel : list nat) (i j k : nat).

Lemma swap_items_Ok i j a :
  (i < length a)%nat → (j < length a)%nat →
  ∃ a', swap_items i j a = Ok a'.
Proof.
  intros Hi Hj. unfold swap_items.
  destruct (lookup_lt_is_Some_2 a i Hi) as [x ->].
  destruct (lookup_lt_is_Some_2 a j Hj) as [y ->]. eauto.
Qed.

Lemma swap_items_spec i j a a' :
  swap_items i j a = Ok a' → i ≠ j →
  length a' = length a ∧ a' !! i = a !! j ∧ a' !! j = a !! i ∧
  (∀ k, k ≠ i → k ≠ j → a' !! k = a !! k) ∧ a' ≡ₚ a.
Proof.
  unfold swap_items. intros Hswap Hne.
  destruct (a !! j) as [aj|] eqn:Hj; [|done].
  destruct (a !! i) as [ai|] eqn:Hi; [|done].
  injection Hswap as <-.
  pose proof (lookup_lt_Some _ _ _ Hi). pose proof (lookup_lt_Some _ _ _ Hj).
  split_and!.
  - by rewrite !length_insert.
  - rewrite list_lookup_insert_ne by done. by apply list_lookup_insert_eq.
  - apply list_lookup_insert_eq. by rewrite length_insert.
  - intros k Hki Hkj. by rewrite !list_lookup_insert_ne.
  - by apply Permutation_insert_swap.
Qed.

(** The loop of [move_up] on strictly ascending indices that all have a
    left neighbour. *)
Lemma move_up_loop_spec sel : ∀ a,
  StronglySorted lt sel →
  Forall (λ i, (1 ≤ i < length a)%nat) sel →
  ∃ a', move_up_loop sel a = Ok a' ∧ length a' = length a ∧ a' ≡ₚ a ∧
        (∀ i, i ∈ sel → a' !! (i - 1)%nat = a !! i) ∧
        (∀ k, Forall (λ i, (k + 1 < i)%nat) sel → a' !! k = a !! k).
Proof.
  induction sel as [|i rest IH]; intros a Hsorted Hrange; simpl.
  - exists a. split_and!; [done..| |done]. intros i Hi. by apply elem_of_nil in Hi.
  - apply StronglySorted_inv in Hsorted as [Hsorted Hfirst].
    apply Forall_cons in Hrange as [Hi Hrange].
    rewrite bool_decide_eq_true_2 by lia.
    destruct (swap_items_Ok i (i - 1) a) as [a1 Hswap]; [lia..|].
    rewrite Hswap. simpl.
    apply swap_items_spec in Hswap as (Hlen1 & Hi1 & Hj1 & Hother1 & Hperm1); [|lia].
    destruct (IH a1 Hsorted) as (a' & Hloop & Hlen & Hperm & Hmoved & Hframe).
    { eapply Forall_impl; [exact Hrange|]. simpl. intros. lia. }
    exists a'. split_and!.
    + done.
    + congruence.
    + by etrans.
    + intros j Hj. apply elem_of_cons in Hj as [->|Hj].
      * rewrite Hframe; [done|].
        eapply Forall_impl; [exact Hfirst|]. simpl. intros. lia.
      * rewrite Hmoved by done. rewrite Forall_forall in Hfirst.
        specialize (Hfirst j Hj). apply Hother1; lia.
    + intros k Hk. apply Forall_cons in Hk as [Hki Hk].
      rewrite Hframe by done. apply Hother1; lia.
Qed.

Lemma move_down_loop_app order1 order2 a :
  move_down_loop (order1 ++ order2) a
  = (a1 ←ᵣ move_down_loop order1 a; move_down_loop order2 a1).
Proof.
  revert a. induction order1 as [|i rest IH]; intros a; simpl; [done|].
  case_bool_decide; [|apply IH].
  destruct (swap_items i (i + 1) a); simpl; [apply IH|done].
Qed.

(** The loop of [move_down], run over the reversed selection, on strictly
    ascending indices that all have a right neighbour. *)
Lemma move_down_loop_spec sel : ∀ a,
  StronglySorted lt sel →
  Forall (λ i, (i + 1 < length a)%nat) sel →
  ∃ a', move_down_loop (reverse sel) a = Ok a' ∧ length a' = length a ∧
        a' ≡ₚ a ∧
        (∀ i, i ∈ sel → a' !! (i + 1)%nat = a !! i) ∧
        (∀ k, Forall (λ i, (k < i)%nat) sel → a' !! k = a !! k).
Proof.
  induction sel as [|i rest IH]; intros a Hsorted Hrange.
  - exists a. split_and!; [done..| |done]. intros i Hi. by apply elem_of_nil in Hi.
  - apply StronglySorted_inv in Hsorted as [Hsorted Hfirst].
    apply Forall_cons in Hrange as [Hi Hrange].
    destruct (IH a Hsorted Hrange) as (a1 & Hloop & Hlen1 & Hperm1 & Hmoved & Hframe).
    rewrite reverse_cons, move_down_loop_app, Hloop. simpl.
    rewrite bool_decide_eq_true_2 by lia.
    destruct (swap_items_Ok i (i + 1) a1) as [a' Hswap]; [lia..|].
    rewrite Hswap. simpl.
    apply swap_items_spec in Hswap as (Hlen & Hi' & Hj' & Hother & Hperm); [|lia].
    exists a'. split_and!.
    + done.
    + congruence.
    + by etrans.
    + intros j Hj. apply elem_of_cons in Hj as [->|Hj].
      * rewrite Hj'. by apply Hframe.
      * rewrite Forall_forall in Hfirst. specialize (Hfirst j Hj).
        rewrite Hother by lia. by apply Hmoved.
    + intros k Hk. apply Forall_cons in Hk as [Hki Hk].
      rewrite Hother by lia. by apply Hframe.
Qed.

Lemma sorted_last_max sel m :
  StronglySorted lt sel → last sel = Some m → Forall (λ i, (i ≤ m)%nat) sel.
Proof.
  induction 1 as [|i rest Hsorted IH Hfirst]; intros Hlast; [constructor|].
  rewrite last_cons in Hlast. destruct (last rest) as [y|] eqn:Hy.
  - injection Hlast as ->. specialize (IH eq_refl). constructor; [|done].
    apply last_Some in Hy as [l' ->]. rewrite Forall_app, Forall_singleton in Hfirst.
    lia.
  - injection Hlast as ->. apply last_None in Hy as ->. by repeat constructor.
Qed.

Lemma sorted_head_min sel i rest :
  StronglySorted lt sel → sel = i :: rest → Forall (λ j, (i ≤ j)%nat) sel.
Proof.
  intros Hsorted ->. apply StronglySorted_inv in Hsorted as [_ Hfirst].
  constructor; [done|]. eapply Forall_impl; [exact Hfirst|]. simpl. intros. lia.
Qed.

End Reorder.

Section ReorderWindow.

Implicit Types (g : gui).

Lemma move_up_noop g :
  rows_match g →
  Listbox.curselection (listbox g) = [] ∨ 0%nat ∈ Listbox.curselection (listbox g) →
  move_up g = Ok g.
Proof.
  intros _ Hsel. unfold move_up.
  pose proof (curselection_sorted (listbox g)) as Hsorted.
  destruct (Listbox.curselection (listbox g)) as [|first rest] eqn:Heq; [done|].
  destruct Hsel as [|Hin]; [done|].
  pose proof (sorted_head_min _ _ _ Hsorted eq_refl) as Hmin.
  rewrite Forall_forall in Hmin. specialize (Hmin _ Hin).
  rewrite bool_decide_eq_true_2 by lia. done.
Qed.

Lemma move_up_moves g :
  rows_match g →
  Listbox.curselection (listbox g) ≠ [] →
  0%nat ∉ Listbox.curselection (listbox g) →
  ∃ g', move_up g = Ok g' ∧
        length (image_files g') = length (image_files g) ∧
        image_files g' ≡ₚ image_files g ∧
        ∀ i, i ∈ Listbox.curselection (listbox g) →
             (1 ≤ i)%nat ∧
             image_files g' !! (i - 1)%nat = image_files g !! i ∧
             listbox g' !! (i - 1)%nat = Some true.
Proof.
  intros Hrows Hne H0. unfold move_up.
  pose proof (curselection_sorted (listbox g)) as Hsorted.
  pose proof (curselection_lt (listbox g)) as Hlt.
  destruct (Listbox.curselection (listbox g)) as [|first rest] eqn:Heq; [done|].
  assert (Hpos : ∀ i, i ∈ first :: rest → (1 ≤ i)%nat).
  { intros i Hi. destruct (decide (i = 0%nat)) as [->|]; [done|lia]. }
  rewrite bool_decide_eq_false_2 by (specialize (Hpos first); set_solver).
  destruct (move_up_loop_spec (first :: rest) (image_files g) Hsorted)
    as (a' & Hloop & Hlen & Hperm & Hmoved & _).
  { apply Forall_forall. intros i Hi. split; [by apply Hpos|].
    rewrite <- Hrows. by apply Hlt. }
  rewrite Hloop. cbn [rbind]. eexists. split; [done|].
  cbn [image_files listbox set_listbox update_listbox set_image_files].
  split_and!; [done..|]. intros i Hi.
  split_and!; [by apply Hpos|by apply Hmoved|].
  apply reselect_selects.
  - apply (list_elem_of_fmap_2'
             (λ i, if bool_decide (0 < i)%nat then (i - 1)%nat else i)
             (first :: rest) i); [done|].
    specialize (Hpos i Hi). by rewrite bool_decide_eq_true_2 by lia.
  - unfold Listbox.rebuilt. rewrite length_replicate, Hlen, <- Hrows.
    specialize (Hlt i Hi). specialize (Hpos i Hi). lia.
Qed.

Lemma move_down_noop g :
  rows_match g →
  Listbox.curselection (listbox g) = []
  ∨ (length (image_files g) - 1)%nat ∈ Listbox.curselection (listbox g) →
  move_down g = Ok g.
Proof.
  intros Hrows Hsel. unfold move_down.
  pose proof (curselection_sorted (listbox g)) as Hsorted.
  pose proof (curselection_lt (listbox g)) as Hlt.
  destruct (last (Listbox.curselection (listbox g))) as [final|] eqn:Hlast; [|done].
  destruct Hsel as [Hnil|Hin]; [by rewrite Hnil in Hlast|].
  pose proof (sorted_last_max _ _ Hsorted Hlast) as Hmax.
  rewrite Forall_forall in Hmax. specialize (Hmax _ Hin).
  assert (final ∈ Listbox.curselection (listbox g)) as Hfinal.
  { apply last_Some in Hlast as [l' ->]. set_solver. }
  apply Hlt in Hfinal. rewrite Hrows in Hfinal.
  rewrite bool_decide_eq_true_2 by lia. done.
Qed.

Lemma move_down_moves g :
  rows_match g →
  Listbox.curselection (listbox g) ≠ [] →
  (length (image_files g) - 1)%nat ∉ Listbox.curselection (listbox g) →
  ∃ g', move_down g = Ok g' ∧
        length (image_files g') = length (image_files g) ∧
        image_files g' ≡ₚ image_files g ∧
        ∀ i, i ∈ Listbox.curselection (listbox g) →
             (i + 1 < length (image_files g))%nat ∧
             image_files g' !! (i + 1)%nat = image_files g !! i ∧
             listbox g' !! (i + 1)%nat = Some true.
Proof.
  intros Hrows Hne Hnotlast. unfold move_down.
  pose proof (curselection_sorted (listbox g)) as Hsorted.
  pose proof (curselection_lt (listbox g)) as Hlt.
  destruct (last (Listbox.curselection (listbox g))) as [final|] eqn:Hlast.
  2: { apply last_None in Hlast. done. }
  assert (Hroom : ∀ i, i ∈ Listbox.curselection (listbox g) →
                       (i + 1 < length (image_files g))%nat).
  { intros i Hi. pose proof (Hlt i Hi) as Hi'. rewrite Hrows in Hi'.
    destruct (decide (i = (length (image_files g) - 1)%nat)) as [->|]; [done|lia]. }
  assert (final ∈ Listbox.curselection (listbox g)) as Hfinal.
  { apply last_Some in Hlast as [l' ->]. set_solver. }
  rewrite bool_decide_eq_false_2 by (specialize (Hroom final Hfinal); lia).
  destruct (move_down_loop_spec _ (image_files g) Hsorted)
    as (a' & Hloop & Hlen & Hperm & Hmoved & _).
  { apply Forall_forall. intros i Hi. by apply Hroom. }
  rewrite Hloop. cbn [rbind]. eexists. split; [done|].
  cbn [image_files listbox set_listbox update_listbox set_image_files].
  split_and!; [done..|]. intros i Hi.
  split_and!; [by apply Hroom|by apply Hmoved|].
  apply reselect_selects.
  - apply (list_elem_of_fmap_2'
             (λ i, if bool_decide (Z.of_nat i < Z.of_nat (length a') - 1)%Z
                   then (i + 1)%nat else i)
             (Listbox.curselection (listbox g)) i); [done|].
    specialize (Hroom i Hi). by rewrite bool_decide_eq_true_2 by lia.
  - unfold Listbox.rebuilt. rewrite length_replicate, Hlen.
    by apply Hroom.
Qed.

End ReorderWindow.

(** ** The list box keeps showing the image list

    [rows_match] holds of the empty window and is kept by every operation
    on the catalogue, so it holds whenever [move_up] or [move_down] runs. *)

Section RowsMatch.

Implicit Types (g : gui).

Lemma rows_match_update_listbox g : rows_match (update_listbox g).
Proof.
  unfold rows_match, update_listbox, Listbox.size, Listbox.rebuilt. simpl.
  apply length_replicate.
Qed.

Lemma rows_match_scan_folder w g : rows_match g → rows_match (scan_folder w g).
Proof.
  intros Hrows. unfold scan_folder.
  destruct (bool_decide _ || negb _); [done|].
  destruct (py_sorted _) eqn:Hfiles; apply rows_match_update_listbox.
Qed.

Lemma rows_match_move_up g g' :
  rows_match g → move_up g = Ok g' → rows_match g'.
Proof.
  intros Hrows. unfold move_up.
  destruct (Listbox.curselection (listbox g)) as [|first rest];
    [by intros [= <-]|].
  case_bool_decide; [by intros [= <-]|].
  destruct (move_up_loop _ _) as [a'|]; [|done]. intros [= <-].
  unfold rows_match, Listbox.size.
  cbn [image_files listbox set_listbox update_listbox set_image_files].
  rewrite reselect_length. unfold Listbox.selection_set, Listbox.rebuilt.
  rewrite ?length_insert. apply length_replicate.
Qed.

Lemma rows_match_move_down g g' :
  rows_match g → move_down g = Ok g' → rows_match g'.
Proof.
  intros Hrows. unfold move_down.
  destruct (last (Listbox.curselection (listbox g))) as [final|];
    [|by intros [= <-]].
  case_bool_decide; [by intros [= <-]|].
  destruct (move_down_loop _ _) as [a'|]; [|done]. intros [= <-].
  unfold rows_match, Listbox.size.
  cbn [image_files listbox set_listbox update_listbox set_image_files].
  rewrite reselect_length. unfold Listbox.selection_set, Listbox.rebuilt.
  rewrite ?length_insert. apply length_replicate.
Qed.

Lemma rows_match_remove_selected g :
  rows_match g → rows_match (remove_selected g).
Proof.
  intros Hrows. unfold remove_selected.
  destruct (Listbox.curselection (listbox g)); [done|].
  apply rows_match_update_listbox.
Qed.

Lemma rows_match_reverse_selection g :
  rows_match g → rows_match (reverse_selection g).
Proof.
  unfold rows_match, Listbox.size. intros Hrows.
  rewrite reverse_selection_selects_all. unfold Listbox.size.
  by rewrite length_replicate.
Qed.

End RowsMatch.

(** ** Claims about the catalogue *)

(** C2 (the code departs from the claim).  On three rows of which row 0 is
    selected, the complement is rows 1 and 2, but after [reverse_selection]
    rows 0, 1 and 2 are all selected: the rows that were selected are never
    cleared. *)
Theorem reverse_selection_keeps_old_selection :
  let g := sample_gui ["a.png"; "b.png"; "c.png"] [true; false; false] in
  Listbox.curselection (listbox g) = [0%nat]
  ∧ spec_reverseSelection (Listbox.curselection (listbox g))
                          (Listbox.size (listbox g)) = [1%nat; 2%nat]
  ∧ Listbox.curselection (listbox (reverse_selection g)) = [0%nat; 1%nat; 2%nat].
Proof. by vm_compute. Qed.






(** ** Scanning *)

Section StringOrder.

#[global] Instance str_le_total : Total str_le.
Proof. intros a b. apply String.leb_total. Qed.

#[global] Instance str_le_antisym : AntiSymm (=) str_le.
Proof. intros a b. apply String.leb_antisym. Qed.

#[global] Instance str_le_trans : Transitive str_le.
Proof.
  intros a b c. unfold str_le, String.leb.
  destruct (String.compare a b) eqn:Hab; [|..].
  - apply OrderedTypeEx.String_as_OT.cmp_eq in Hab as ->. done.
  - destruct (String.compare b c) eqn:Hbc; [| |done].
    + apply OrderedTypeEx.String_as_OT.cmp_eq in Hbc as ->. by rewrite Hab.
    + apply OrderedTypeEx.String_as_OT.cmp_lt in Hab, Hbc.
      pose proof (OrderedTypeEx.String_as_OT.lt_trans _ _ _ Hab Hbc) as Hac.
      apply OrderedTypeEx.String_as_OT.cmp_lt in Hac.
      unfold OrderedTypeEx.String_as_OT.cmp in Hac. by rewrite Hac.
  - done.
Qed.

Lemma py_sorted_sorted xs : Sorted str_le (py_sorted xs).
Proof. apply (Sorted_merge_sort str_le). Qed.

Lemma py_sorted_perm xs : py_sorted xs ≡ₚ xs.
Proof. apply merge_sort_Permutation. Qed.

Lemma elem_of_sorted_set xs x : x ∈ py_sorted (py_set xs) ↔ x ∈ xs.
Proof. rewrite py_sorted_perm. apply elem_of_remove_dups. Qed.

Lemma NoDup_sorted_set xs : NoDup (py_sorted (py_set xs)).
Proof. rewrite py_sorted_perm. apply NoDup_remove_dups. Qed.

(** A sorted list without duplicates is determined by its elements, so
    the order in which the set hands its elements to [sorted] does not
    show in the result. *)
Lemma py_sorted_unique (l : list string) xs :
  Sorted str_le l → NoDup l → (∀ x, x ∈ l ↔ x ∈ xs) →
  l = py_sorted (py_set xs).
Proof.
  intros Hsorted Hnodup Helem.
  apply (Sorted_unique str_le); [done|apply py_sorted_sorted|].
  apply NoDup_Permutation; [done|apply NoDup_sorted_set|].
  intros x. by rewrite elem_of_sorted_set.
Qed.

Lemma py_sorted_set_ext xs ys :
  (∀ x, x ∈ xs ↔ x ∈ ys) → py_sorted (py_set xs) = py_sorted (py_set ys).
Proof.
  intros Helem. apply py_sorted_unique.
  - apply py_sorted_sorted.
  - apply NoDup_sorted_set.
  - intros x. by rewrite elem_of_sorted_set.
Qed.

End StringOrder.

Section Scan.

Implicit Types (w : world) (g : gui).

Lemma elem_of_glob_star w folder ext p :
  p ∈ glob_star w folder ext ↔
  ∃ name, name ∈ w_listdir w (glob_dir w folder ext)
          ∧ ishidden name = false
          ∧ str_endswith ext (normcase (w_path w) name) = true
          ∧ p = join (w_path w) (glob_dir w folder ext) name.
Proof.
  unfold glob_star, fnmatch_star. rewrite list_elem_of_fmap. split.
  - intros (name & -> & Hname). apply list_elem_of_filter in Hname as [Hkeep Hin].
    apply andb_true_iff in Hkeep as [Hvis Hmatch].
    exists name. split_and!; [done|by apply negb_true_iff|done..].
  - intros (name & Hin & Hvis & Hmatch & ->). exists name. split; [done|].
    apply list_elem_of_filter. split; [|done].
    apply andb_true_iff. split; [by apply negb_true_iff|done].
Qed.

Lemma elem_of_scan_fold w folder format_filter (exts acc : list string) p :
  p ∈ foldl (λ acc ext,
               if skipped_by_filter format_filter ext then acc
               else acc ++ glob_star w folder ext) acc exts
  ↔ p ∈ acc ∨ ∃ ext, ext ∈ exts ∧ skipped_by_filter format_filter ext = false
                     ∧ p ∈ glob_star w folder ext.
Proof.
  revert acc. induction exts as [|e exts IH]; intros acc; simpl.
  - split; [by left|]. intros [?|(ext & Hin & _)]; [done|].
    by apply elem_of_nil in Hin.
  - rewrite IH. destruct (skipped_by_filter format_filter e) eqn:Hskip.
    + split.
      * intros [?|(ext & Hin & Hkeep & Hp)]; [by left|right].
        exists ext. split_and!; [by right|done..].
      * intros [?|(ext & Hin & Hkeep & Hp)]; [by left|right].
        apply elem_of_cons in Hin as [->|Hin]; [congruence|].
        by exists ext.
    + rewrite elem_of_app. split.
      * intros [[?|Hp]|(ext & Hin & Hkeep & Hp)]; [by left|right..].
        -- exists e. split_and!; [by left|done..].
        -- exists ext. split_and!; [by right|done..].
      * intros [?|(ext & Hin & Hkeep & Hp)]; [by left; left|].
        apply elem_of_cons in Hin as [->|Hin]; [by left; right|right].
        by exists ext.
Qed.

Lemma elem_of_scan_loop w folder format_filter p :
  p ∈ scan_loop w folder format_filter
  ↔ ∃ ext, ext ∈ w_formats w ∧ skipped_by_filter format_filter ext = false
           ∧ p ∈ glob_star w folder ext.
Proof.
  unfold scan_loop. rewrite elem_of_scan_fold. split; [|by right].
  intros [Hnil|?]; [|done]. by apply elem_of_nil in Hnil.
Qed.

(** On the supported extensions, the three [continue] tests keep exactly
    the named subset. *)
Lemma skipped_by_filter_subset format_filter ext :
  ext ∈ SUPPORTED_FORMATS →
  skipped_by_filter format_filter ext = false
  ↔ ext ∈ spec_named_subset format_filter.
Proof.
  intros Hext. unfold skipped_by_filter, spec_named_subset.
  repeat case_bool_decide; simpl; subst; try discriminate;
    try (split; [done|]; intros _; reflexivity);
    try (split; [discriminate|]; intros ?; done).
Qed.

Lemma image_files_scan_folder w g :
  strip (path_entry g) ≠ "" → w_isdir w (strip (path_entry g)) = true →
  image_files (scan_folder w g)
  = py_sorted (py_set (scan_loop w (strip (path_entry g)) (format_var g))).
Proof.
  intros Hne Hdir. unfold scan_folder.
  rewrite bool_decide_eq_false_2 by done. rewrite Hdir. simpl.
  by destruct (py_sorted _).
Qed.

End Scan.







(** ** The export loops *)

Section Loops.

Lemma enumerate_snd {A} (l : list A) : (enumerate l).*2 = l.
Proof. unfold enumerate. apply snd_zip. by rewrite length_seq. Qed.

Lemma enumerate_fst {A} (l : list A) : (enumerate l).*1 = seq 0 (length l).
Proof. unfold enumerate. apply fst_zip. by rewrite length_seq. Qed.

Lemma enumerate_Forall {A} (P : A → Prop) (l : list A) :
  Forall P l → Forall (λ ip, P ip.2) (enumerate l).
Proof.
  intros HP. apply Forall_forall. intros [i x] Hin. simpl.
  rewrite Forall_forall in HP. apply HP.
  unfold enumerate in Hin. by apply elem_of_zip_r in Hin.
Qed.

Lemma progress_events_app tr1 tr2 :
  progress_events (tr1 ++ tr2) = progress_events tr1 ++ progress_events tr2.
Proof. apply omap_app. Qed.

Lemma progress_events_bind {A} (events : A → list ui_event) (ok : A → bool)
    (percent : A → Q) (items : list A) :
  Forall (λ x, progress_events (events x) = if ok x then [percent x] else [])
         items →
  progress_events (items ≫= events)
  = percent <$> filter (λ x, ok x = true) items.
Proof.
  induction 1 as [|x items Hitem _ IH]; [done|].
  rewrite bind_cons, progress_events_app, IH, Hitem, filter_cons.
  destruct (ok x) eqn:Hok.
  - rewrite decide_True by done. done.
  - rewrite decide_False by done. done.
Qed.

End Loops.

Section PdfLoop.

Context (w : world) (quality_mode compression_type : string)
        (quality : option Z) (total_files : nat).

Lemma pdf_try_app f filepath pages :
  pdf_try f compression_type quality filepath pages
  = (pages ++ (pdf_try f compression_type quality filepath []).1,
     (pdf_try f compression_type quality filepath []).2).
Proof.
  unfold pdf_try. destruct (f_image f) as [img|]; simpl.
  - case_bool_decide.
    + destruct (f_pdf_ok f); done.
    + destruct (normalize_mode filepath img) as [img'|e]; simpl.
      * destruct (save_jpeg filepath img' quality); simpl;
          by rewrite ?app_nil_r.
      * by rewrite app_nil_r.
  - by rewrite app_nil_r.
Qed.

Lemma pdf_body_delta i filepath s :
  is_Some (w_files w !! filepath) →
  pdf_body w quality_mode compression_type quality total_files (i, filepath) s
  = (PdfState
       (pdf_trace s
        ++ pdf_item_events w quality_mode compression_type quality total_files
             (i, filepath))
       (pdf_pages s ++ pdf_item_pages w compression_type quality filepath)
       (pdf_total_size s + pdf_item_size w filepath),
     Ok ()).
Proof.
  intros [f Hf].
  unfold pdf_item_events, pdf_item_pages, pdf_item_size, pdf_body.
  rewrite Hf. cbn [pdf_trace pdf_pages pdf_total_size].
  rewrite (pdf_try_app f filepath (pdf_pages s)).
  destruct (pdf_try f compression_type quality filepath []) as [pg r].
  destruct (pdf_try f "" None filepath []) as [pg0 r0].
  destruct r, r0; simpl; by rewrite <- ?app_assoc.
Qed.

Lemma pdf_loop_run items s :
  Forall (λ ip, is_Some (w_files w !! ip.2)) items →
  for_each (pdf_body w quality_mode compression_type quality total_files)
           items s
  = (PdfState
       (pdf_trace s
        ++ (items ≫= pdf_item_events w quality_mode compression_type quality
                                       total_files))
       (pdf_pages s ++ (items.*2 ≫= pdf_item_pages w compression_type quality))
       (pdf_total_size s + foldr Z.add 0%Z (pdf_item_size w <$> items.*2)),
     Ok ()).
Proof.
  intros Hpresent. revert s.
  induction Hpresent as [|[i filepath] items Hhere _ IH]; intros s.
  - simpl. rewrite !app_nil_r, Z.add_0_r. by destruct s.
  - cbn [for_each]. rewrite pdf_body_delta by done.
    rewrite IH. cbn [pdf_trace pdf_pages pdf_total_size].
    rewrite !fmap_cons, !bind_cons, <- !app_assoc. simpl.
    by rewrite Z.add_assoc.
Qed.

End PdfLoop.

Section PdfRun.

Context (w : world) (g : gui) (output_file : string).

Let quality_mode := pdf_quality_var g.
Let compression_type := (pdf_settings quality_mode).1.
Let quality := (pdf_settings quality_mode).2.

Lemma convert_to_pdf_loop :
  Forall (λ p, is_Some (w_files w !! p)) (image_files g) →
  ∃ tail_,
    convert_to_pdf w g output_file
    = ([EvLog (LogPdfStart quality_mode)]
       ++ (enumerate (image_files g)
             ≫= pdf_item_events w quality_mode compression_type quality
                                (length (image_files g)))
       ++ tail_,
       match w_save w output_file with
       | Some _ => Ok (image_files g ≫= pdf_item_pages w compression_type quality)
       | None => Raise (SaveError output_file)
       end)
    ∧ progress_events tail_ = [].
Proof.
  intros Hpresent. unfold convert_to_pdf.
  subst compression_type quality quality_mode.
  destruct (pdf_settings (pdf_quality_var g)) as [c q]. simpl.
  rewrite pdf_loop_run
    by exact (enumerate_Forall (λ p, is_Some (w_files w !! p)) _ Hpresent).
  rewrite enumerate_snd. cbn [pdf_trace pdf_pages pdf_total_size].
  destruct (w_save w output_file) as [sz|].
  - eexists. split; [by rewrite <- !app_assoc|]. done.
  - eexists. split; [by rewrite <- !app_assoc|]. done.
Qed.

Lemma progress_events_pdf_item n (item : nat * string) :
  progress_events (pdf_item_events w quality_mode compression_type quality n item)
  = if pdf_entry_ok w quality_mode item.2
    then [progress_percent item.1 n] else [].
Proof.
  destruct item as [i filepath].
  unfold pdf_item_events, pdf_entry_ok, pdf_body. simpl.
  destruct (w_files w !! filepath) as [f|]; [|done].
  fold quality_mode. fold compression_type. fold quality.
  destruct (pdf_try f compression_type quality filepath []) as [pg r].
  by destruct r.
Qed.

End PdfRun.

Section PptLoop.

Context (w : world) (ppt_layout : string) (total_files : nat).

Lemma ppt_geometry_Ok width height :
  (0 < width)%Z → (0 < height)%Z →
  ∃ geometry, ppt_geometry ppt_layout width height = Ok geometry.
Proof.
  intros Hw Hh. unfold ppt_geometry.
  repeat case_bool_decide; simpl; try lia; eauto.
Qed.

Lemma ppt_body_delta i filepath s :
  file_ready w filepath = true →
  ppt_body w ppt_layout total_files (i, filepath) s
  = (PptState
       (ppt_trace s ++ ppt_item_events w ppt_layout total_files (i, filepath))
       (ppt_slides s ++ ppt_item_slides w ppt_layout filepath),
     Ok ()).
Proof.
  unfold file_ready, ppt_item_events, ppt_item_slides, ppt_body.
  destruct (w_files w !! filepath) as [f|]; [|done].
  destruct (f_image f) as [img|]; simpl.
  - intros Hdims. apply andb_true_iff in Hdims as [Hw Hh].
    apply Z.ltb_lt in Hw, Hh.
    destruct (ppt_geometry_Ok _ _ Hw Hh) as ([[[left_ top_] width] height] & ->).
    destruct (f_pptx_ok f); simpl; by rewrite <- ?app_assoc, ?app_nil_r.
  - intros _. by rewrite <- app_assoc, app_nil_r.
Qed.

Lemma ppt_loop_run items s :
  Forall (λ ip, file_ready w ip.2 = true) items →
  for_each (ppt_body w ppt_layout total_files) items s
  = (PptState
       (ppt_trace s ++ (items ≫= ppt_item_events w ppt_layout total_files))
       (ppt_slides s ++ (items.*2 ≫= ppt_item_slides w ppt_layout)),
     Ok ()).
Proof.
  intros Hready. revert s.
  induction Hready as [|[i filepath] items Hhere _ IH]; intros s.
  - simpl. rewrite !app_nil_r. by destruct s.
  - cbn [for_each]. rewrite ppt_body_delta by done.
    rewrite IH. cbn [ppt_trace ppt_slides].
    by rewrite !fmap_cons, !bind_cons, <- !app_assoc.
Qed.

Lemma progress_events_ppt_item (item : nat * string) :
  file_ready w item.2 = true →
  progress_events (ppt_item_events w ppt_layout total_files item)
  = if ppt_entry_ok w item.2
    then [progress_percent item.1 total_files] else [].
Proof.
  destruct item as [i filepath].
  unfold file_ready, ppt_item_events, ppt_entry_ok, ppt_body. simpl.
  destruct (w_files w !! filepath) as [f|]; [|done].
  destruct (f_image f) as [img|]; [|done].
  intros Hdims. apply andb_true_iff in Hdims as [Hw Hh].
  apply Z.ltb_lt in Hw, Hh.
  destruct (ppt_geometry_Ok _ _ Hw Hh) as ([[[left_ top_] width] height] & ->).
  by destruct (f_pptx_ok f).
Qed.

End PptLoop.

Section PptRun.

Context (w : world) (g : gui) (output_file : string).

Lemma convert_to_ppt_loop :
  Forall (λ p, file_ready w p = true) (image_files g) →
  ∃ tail_,
    convert_to_ppt w g output_file
    = ([EvLog LogPptStart]
       ++ (enumerate (image_files g)
             ≫= ppt_item_events w (ppt_layout_var g) (length (image_files g)))
       ++ tail_,
       match w_save w output_file with
       | Some _ => Ok (image_files g ≫= ppt_item_slides w (ppt_layout_var g))
       | None => Raise (SaveError output_file)
       end)
    ∧ progress_events tail_ = []
    ∧ (∀ size, w_save w output_file = Some size →
               tail_ = [EvLog LogPptSaving; EvLog LogPptDone;
                        EvLog (LogPptSlides (length (image_files g)));
                        EvLog (LogPptSize size)]).
Proof.
  intros Hready. unfold convert_to_ppt.
  rewrite ppt_loop_run
    by exact (enumerate_Forall (λ p, file_ready w p = true) _ Hready).
  rewrite enumerate_snd. cbn [ppt_trace ppt_slides].
  destruct (w_save w output_file) as [sz|].
  - eexists. split; [by rewrite <- !app_assoc|]. split; [done|].
    by intros size [= <-].
  - eexists. split; [by rewrite <- !app_assoc|]. done.
Qed.

End PptRun.

Lemma file_ready_present w filepath :
  file_ready w filepath = true → is_Some (w_files w !! filepath).
Proof. unfold file_ready. destruct (w_files w !! filepath); [eauto|done]. Qed.

Section Sorting.

Lemma StronglySorted_lt_seq start len : StronglySorted lt (seq start len).
Proof.
  revert start. induction len as [|len IH]; intros start; simpl; [constructor|].
  constructor; [apply IH|]. apply Forall_forall. intros i Hi.
  apply elem_of_seq in Hi. lia.
Qed.

Lemma StronglySorted_sublist {A} (R : relation A) (l1 l2 : list A) :
  l1 `sublist_of` l2 → StronglySorted R l2 → StronglySorted R l1.
Proof.
  induction 1 as [|x l1 l2 Hsub IH|x l1 l2 Hsub IH]; intros Hsorted.
  - constructor.
  - apply StronglySorted_inv in Hsorted as [Hsorted Hfirst].
    constructor; [by apply IH|].
    apply Forall_forall. intros y Hy. rewrite Forall_forall in Hfirst.
    apply Hfirst. by eapply elem_of_sublist.
  - apply StronglySorted_inv in Hsorted as [Hsorted _]. by apply IH.
Qed.

Lemma filter_all {A} (P : A → Prop) `{∀ x, Decision (P x)} (l : list A) :
  Forall P l → filter P l = l.
Proof.
  induction 1 as [|x l Hx _ IH]; [done|].
  by rewrite filter_cons, decide_True, IH.
Qed.

Lemma enumerate_filter_sorted {A} (P : nat * A → Prop) `{∀ x, Decision (P x)}
    (l : list A) :
  StronglySorted lt (filter P (enumerate l)).*1
  ∧ (length (filter P (enumerate l)) ≤ length l)%nat.
Proof.
  split.
  - apply (StronglySorted_sublist _ _ (enumerate l).*1).
    + apply fmap_sublist, sublist_filter.
    + rewrite enumerate_fst. apply StronglySorted_lt_seq.
  - etrans; [apply length_filter|].
    by rewrite <- (length_fmap snd), enumerate_snd.
Qed.

End Sorting.

(** ** Claims about the exporters *)

(** C3, as the claim words it, fails: in a batch of three files of which
    the second cannot be opened, the paged export sets the progress twice,
    not three times; the skipped entry reports nothing. *)
Lemma skipped_entry_reports_no_progress :
  let w := batch_second_unreadable in
  let g := batch_gui in
  progress_events (convert_to_pdf w g "/p/out.pdf").1
  = [progress_percent 0 3; progress_percent 2 3]
  ∧ ¬ spec_progress_per_entry 3 (convert_to_pdf w g "/p/out.pdf").1.
Proof.
  intros w g. split; [by vm_compute|].
  unfold spec_progress_per_entry. intros Heq.
  apply (f_equal length) in Heq. vm_compute in Heq. discriminate.
Qed.

(** C3 (amended).  When every file of the batch is present, an export
    over [n] entries sets the progress once for each entry that goes
    through, to [(i+1)/n], in increasing order of [i], and not at all for
    an entry that is skipped; so at most [n] progress events are emitted,
    and when no entry is skipped they are exactly those of the indices
    [0 .. n-1]. *)
Theorem export_progress_events (w : world) (g : gui) (output_file : string) :
  Forall (λ p, file_ready w p = true) (image_files g) →
  let n := length (image_files g) in
  let reported (ok : string → bool) :=
    filter (λ ip, ok ip.2 = true) (enumerate (image_files g)) in
  let pdf_ok := pdf_entry_ok w (pdf_quality_var g) in
  let ppt_ok := ppt_entry_ok w in
  progress_events (convert_to_pdf w g output_file).1
  = (λ ip, progress_percent ip.1 n) <$> reported pdf_ok
  ∧ progress_events (convert_to_ppt w g output_file).1
    = (λ ip, progress_percent ip.1 n) <$> reported ppt_ok
  ∧ (∀ ok, StronglySorted lt (reported ok).*1
           ∧ (length (reported ok) ≤ n)%nat)
  ∧ (Forall (λ p, pdf_ok p = true) (image_files g) →
     spec_progress_per_entry n (convert_to_pdf w g output_file).1)
  ∧ (Forall (λ p, ppt_ok p = true) (image_files g) →
     spec_progress_per_entry n (convert_to_ppt w g output_file).1).
Proof.
  intros Hready n reported pdf_ok ppt_ok.
  assert (Hpdf : progress_events (convert_to_pdf w g output_file).1
                 = (λ ip, progress_percent ip.1 n) <$> reported pdf_ok).
  { destruct (convert_to_pdf_loop w g output_file) as (tail_ & -> & Htail).
    { eapply Forall_impl; [exact Hready|]. apply file_ready_present. }
    cbn [fst]. rewrite !progress_events_app, Htail, app_nil_r. simpl.
    apply (progress_events_bind _ (λ ip, pdf_ok ip.2)).
    apply Forall_forall. intros item _. apply progress_events_pdf_item. }
  assert (Hppt : progress_events (convert_to_ppt w g output_file).1
                 = (λ ip, progress_percent ip.1 n) <$> reported ppt_ok).
  { destruct (convert_to_ppt_loop w g output_file Hready) as (tail_ & -> & Htail & _).
    cbn [fst]. rewrite !progress_events_app, Htail, app_nil_r. simpl.
    apply (progress_events_bind _ (λ ip, ppt_ok ip.2)).
    apply Forall_forall. intros item Hitem.
    apply progress_events_ppt_item.
    pose proof (enumerate_Forall (λ p, file_ready w p = true) _ Hready) as Hall.
    rewrite Forall_forall in Hall. by apply Hall. }
  assert (Hall : ∀ ok : string → bool,
    Forall (λ p, ok p = true) (image_files g) →
    (λ ip : nat * string, progress_percent ip.1 n) <$> reported ok
    = (λ i, progress_percent i n) <$> seq 0 n).
  { intros ok Hok. unfold reported.
    rewrite filter_all
      by exact (enumerate_Forall (λ p, ok p = true) _ Hok).
    unfold n. rewrite <- (enumerate_fst (image_files g)).
    by rewrite <- list_fmap_compose. }
  split_and!; [done|done| |..].
  - intros ok. apply enumerate_filter_sorted.
  - intros Hok. unfold spec_progress_per_entry. rewrite Hpdf. by apply Hall.
  - intros Hok. unfold spec_progress_per_entry. rewrite Hppt. by apply Hall.
Qed.

Lemma export_progress_events_witness :
  Forall (λ p, file_ready batch_second_unreadable p = true)
         (image_files batch_gui)
  ∧ progress_events (convert_to_ppt batch_second_unreadable batch_gui
                                    "/p/out.pptx").1
    = [progress_percent 0 3; progress_percent 2 3].
Proof.
  assert (Hready : Forall (λ p, file_ready batch_second_unreadable p = true)
                          (image_files batch_gui)).
  { repeat (constructor; [reflexivity|]). constructor. }
  split; [exact Hready|].
  destruct (export_progress_events batch_second_unreadable batch_gui
              "/p/out.pptx" Hready) as (_ & Hppt & _).
  rewrite Hppt. reflexivity.
Defined.

Section SkippedItem.

Context (w : world) (g : gui) (output_file : string).
Context (pre post : list string) (filepath : string) (f : file).
Hypothesis Hfiles : image_files g = pre ++ filepath :: post.
Hypothesis Hready : Forall (λ p, file_ready w p = true) (image_files g).
Hypothesis Hfile : w_files w !! filepath = Some f.
Hypothesis Hopen : f_image f = None.

Let g' := set_image_files (pre ++ post) g.

Lemma skipped_ready' : Forall (λ p, file_ready w p = true) (image_files g').
Proof.
  rewrite Hfiles in Hready. apply Forall_app in Hready as [Hpre Hrest].
  apply Forall_cons in Hrest as [_ Hpost]. simpl. by apply Forall_app.
Qed.

Lemma skipped_enumerated :
  ∃ i, (i, filepath) ∈ enumerate (image_files g).
Proof.
  assert (filepath ∈ (enumerate (image_files g)).*2) as Hin.
  { rewrite enumerate_snd, Hfiles. set_solver. }
  apply list_elem_of_fmap in Hin as ([i p] & -> & Hin). by exists i.
Qed.

Lemma unreadable_pdf_pages compression_type quality :
  pdf_item_pages w compression_type quality filepath = [].
Proof.
  unfold pdf_item_pages, pdf_body, pdf_try. rewrite Hfile, Hopen. done.
Qed.

Lemma unreadable_ppt_slides ppt_layout :
  ppt_item_slides w ppt_layout filepath = [].
Proof.
  unfold ppt_item_slides, ppt_body. rewrite Hfile, Hopen. done.
Qed.

Lemma skipped_pdf size :
  w_save w output_file = Some size →
  ∃ trace trace' pages,
    convert_to_pdf w g output_file = (trace, Ok pages)
    ∧ convert_to_pdf w g' output_file = (trace', Ok pages)
    ∧ EvLog (LogPdfItemWarning (UnidentifiedImageError filepath)) ∈ trace.
Proof.
  intros Hsave.
  destruct (convert_to_pdf_loop w g output_file) as (tail_ & Hrun & _).
  { eapply Forall_impl; [exact Hready|]. apply file_ready_present. }
  destruct (convert_to_pdf_loop w g' output_file) as (tail' & Hrun' & _).
  { eapply Forall_impl; [exact skipped_ready'|]. apply file_ready_present. }
  rewrite Hsave in Hrun, Hrun'. do 3 eexists. split_and!; [exact Hrun| |].
  - rewrite Hrun'. f_equal. f_equal. simpl. rewrite Hfiles.
    by rewrite !bind_app, bind_cons, unreadable_pdf_pages.
  - destruct skipped_enumerated as [i Hi].
    apply elem_of_app. right. apply elem_of_app. left.
    apply list_elem_of_bind. exists (i, filepath). split; [|done].
    unfold pdf_item_events, pdf_body, pdf_try. rewrite Hfile, Hopen. simpl.
    set_solver.
Qed.

Lemma skipped_ppt size :
  w_save w output_file = Some size →
  ∃ trace trace' slides,
    convert_to_ppt w g output_file = (trace, Ok slides)
    ∧ convert_to_ppt w g' output_file = (trace', Ok slides)
    ∧ EvLog (LogPptSizeWarning (UnidentifiedImageError filepath)) ∈ trace.
Proof.
  intros Hsave.
  destruct (convert_to_ppt_loop w g output_file Hready) as (tail_ & Hrun & _).
  destruct (convert_to_ppt_loop w g' output_file skipped_ready')
    as (tail' & Hrun' & _).
  rewrite Hsave in Hrun, Hrun'. do 3 eexists. split_and!; [exact Hrun| |].
  - rewrite Hrun'. f_equal. f_equal. simpl. rewrite Hfiles.
    by rewrite !bind_app, bind_cons, unreadable_ppt_slides.
  - destruct skipped_enumerated as [i Hi].
    apply elem_of_app. right. apply elem_of_app. left.
    apply list_elem_of_bind. exists (i, filepath). split; [|done].
    unfold ppt_item_events, ppt_body. rewrite Hfile, Hopen. simpl.
    set_solver.
Qed.

Lemma skipped_run_succeeds size :
  w_save w output_file = Some size →
  (∃ doc, (convert_images w g output_file).2 = Some doc)
  ∧ EvStatus StatusSuccess ∈ ui_trace (convert_images w g output_file).1.
Proof.
  intros Hsave. unfold convert_images.
  destruct (skipped_pdf size Hsave) as (tp & _ & pages & -> & _).
  destruct (skipped_ppt size Hsave) as (ts & _ & slides & -> & _).
  case_bool_decide; simpl; (split; [eauto|set_solver]).
Qed.

End SkippedItem.

(** C8, as the claim words it, fails.  When the second of three images
    opens but is refused on insertion, the deck still has three slides, the
    second one empty; and when the second image does not open, the deck
    has two slides while the closing report still counts three and names
    no skipped item. *)
Lemma rejected_picture_leaves_empty_slide :
  let rejected := convert_to_ppt batch_second_rejected batch_gui "/p/out.pptx" in
  let unreadable :=
    convert_to_ppt batch_second_unreadable batch_gui "/p/out.pptx" in
  (∃ first third,
     rejected.2 = Ok [Some first; None; Some third]
     ∧ ¬ (rejected.2 = Ok [Some first; Some third]))
  ∧ (∃ first third, unreadable.2 = Ok [Some first; Some third])
  ∧ drop 10 unreadable.1
    = [EvLog LogPptSaving; EvLog LogPptDone; EvLog (LogPptSlides 3);
       EvLog (LogPptSize 1024)].
Proof.
  split_and!.
  - do 2 eexists. split; [by vm_compute|]. vm_compute. discriminate.
  - do 2 eexists. by vm_compute.
  - by vm_compute.
Qed.

(** C8 (amended).  In a batch whose files are all present, an image that
    cannot be opened is logged with a warning and adds no page and no
    slide: the document is the one the batch without that image gives.
    The other items are still processed, and when the final save succeeds
    the run ends in success. *)
Theorem unreadable_item_is_skipped (w : world) (g : gui) (output_file : string)
    (pre post : list string) (filepath : string) (f : file) (size : Z) :
  image_files g = pre ++ filepath :: post →
  Forall (λ p, file_ready w p = true) (image_files g) →
  w_files w !! filepath = Some f →
  f_image f = None →
  w_save w output_file = Some size →
  let g' := set_image_files (pre ++ post) g in
  (∃ trace trace' pages,
     convert_to_pdf w g output_file = (trace, Ok pages)
     ∧ convert_to_pdf w g' output_file = (trace', Ok pages)
     ∧ EvLog (LogPdfItemWarning (UnidentifiedImageError filepath)) ∈ trace)
  ∧ (∃ trace trace' slides,
       convert_to_ppt w g output_file = (trace, Ok slides)
       ∧ convert_to_ppt w g' output_file = (trace', Ok slides)
       ∧ EvLog (LogPptSizeWarning (UnidentifiedImageError filepath)) ∈ trace)
  ∧ (∃ doc, (convert_images w g output_file).2 = Some doc)
  ∧ EvStatus StatusSuccess ∈ ui_trace (convert_images w g output_file).1.
Proof.
  intros Hfiles Hready Hfile Hopen Hsave g'. split_and!.
  - by eapply skipped_pdf.
  - by eapply skipped_ppt.
  - by eapply skipped_run_succeeds.
  - by eapply skipped_run_succeeds.
Qed.

Lemma unreadable_item_is_skipped_witness :
  (∃ trace pages,
     convert_to_pdf batch_second_unreadable batch_gui "/p/out.pdf"
     = (trace, Ok pages) ∧ length pages = 2%nat)
  ∧ (∃ trace slides,
       convert_to_ppt batch_second_unreadable batch_gui "/p/out.pdf"
       = (trace, Ok slides) ∧ length slides = 2%nat).
Proof.
  destruct (unreadable_item_is_skipped batch_second_unreadable batch_gui
              "/p/out.pdf" ["/p/a.png"] ["/p/c.png"] "/p/b.png"
              (File 50 None true true) 1024)
    as ((tp & tp' & pages & Hpdf & Hpdf' & _)
        & (ts & ts' & slides & Hppt & Hppt' & _) & _).
  - reflexivity.
  - repeat (constructor; [reflexivity|]). constructor.
  - reflexivity.
  - reflexivity.
  - reflexivity.
  - split.
    + exists tp, pages. split; [exact Hpdf|].
      vm_compute in Hpdf'. injection Hpdf' as _ <-. reflexivity.
    + exists ts, slides. split; [exact Hppt|].
      vm_compute in Hppt'. injection Hppt' as _ <-. reflexivity.
Defined.

Section Recompress.

Context (w : world) (compression_type : string) (quality : option Z).
Hypothesis Hcompress : compression_type ≠ "lossless".

Lemma pdf_item_pages_compress filepath :
  pdf_item_pages w compression_type quality filepath
  = match w_files w !! filepath with
    | None => []
    | Some f =>
        match f_image f with
        | None => []
        | Some img =>
            if img_data_ok img
               && bool_decide (normalized_mode (img_mode img) ∈ JPEG_RAWMODE)
            then [recompressed_page quality img] else []
        end
    end.
Proof.
  unfold pdf_item_pages, pdf_body, pdf_try.
  destruct (w_files w !! filepath) as [f|]; [|done].
  destruct (f_image f) as [[width height mode data_ok]|]; [|done].
  rewrite bool_decide_eq_false_2 by done.
  unfold recompressed_page, normalize_mode, normalized_mode, convert_rgb,
    save_jpeg. simpl.
  destruct data_ok; simpl; [|by repeat case_bool_decide].
  destruct (decide (mode = "RGBA")) as [->|Hrgba]; [done|].
  destruct (decide (mode = "CMYK")) as [->|Hcmyk]; [done|].
  rewrite !(bool_decide_eq_false_2 (mode = "RGBA")),
          !(bool_decide_eq_false_2 (mode = "CMYK")) by done.
  simpl. by destruct (bool_decide (mode ∈ JPEG_RAWMODE)).
Qed.

Lemma elem_of_pdf_item_pages_compress filepath pg :
  pg ∈ pdf_item_pages w compression_type quality filepath
  ↔ ∃ f img,
      w_files w !! filepath = Some f ∧ f_image f = Some img
      ∧ img_data_ok img = true
      ∧ normalized_mode (img_mode img) ∈ JPEG_RAWMODE
      ∧ pg = recompressed_page quality img.
Proof.
  rewrite pdf_item_pages_compress. split.
  - destruct (w_files w !! filepath) as [f|]; [|by intros ?%elem_of_nil].
    destruct (f_image f) as [img|] eqn:Himg; [|by intros ?%elem_of_nil].
    destruct (img_data_ok img) eqn:Hdata; [|by intros ?%elem_of_nil].
    simpl. case_bool_decide; [|by intros ?%elem_of_nil].
    intros ->%list_elem_of_singleton. exists f, img. by split_and!.
  - intros (f & img & -> & -> & -> & Hmode & ->). simpl.
    rewrite bool_decide_eq_true_2 by done. by apply list_elem_of_singleton.
Qed.

Lemma rawmode_has_no_alpha mode :
  mode ∈ JPEG_RAWMODE → has_alpha mode = false.
Proof.
  unfold JPEG_RAWMODE. rewrite !elem_of_cons, elem_of_nil.
  intros [->|[->|[->|[->|[->|[->|[]]]]]]]; reflexivity.
Qed.

End Recompress.




(** The blank layout, for any layout name other than the two named ones:
    the offsets are half an inch in EMU, and the pixel counts are passed on
    as they are. *)
Lemma ppt_geometry_blank ppt_layout original_width original_height :
  ppt_layout ≠ "全屏填充" → ppt_layout ≠ "图片居中" →
  ppt_geometry ppt_layout original_width original_height
  = Ok (457200%Z, 457200%Z, original_width, original_height).
Proof.
  intros Hfill Hcentre. unfold ppt_geometry.
  by rewrite !bool_decide_eq_false_2.
Qed.

(** C1 (the code departs from the claim).  A 4000 by 3000 pixel image
    under the blank layout is placed 457200 EMU (half an inch) from the
    left and from the top, as claimed, but its width and height are given
    as 4000 and 3000 length units, that is EMU; one point per pixel would
    be 50800000 by 38100000 EMU. *)
Theorem blank_layout_size_in_emu :
  (convert_to_ppt one_photo one_photo_gui "/p/out.pptx").2
  = Ok [Some (Picture "/p/a.png" (Inches 0.5) (Inches 0.5) 4000 3000)]
  ∧ Inches 0.5 = 457200%Z
  ∧ spec_blank_size photo = (50800000%Z, 38100000%Z)
  ∧ (4000%Z, 3000%Z) ≠ spec_blank_size photo.
Proof. split_and!; by vm_compute. Qed.

(** A request that passes the two checks starts the worker with the
    stripped output path. *)
Lemma start_conversion_accepts (g : gui) :
  image_files g ≠ [] → strip (output_entry g) ≠ "" →
  start_conversion g
  = (emit [EvConvertButton false; EvProgress 0] g, Some (strip (output_entry g))).
Proof.
  intros Hfiles Hout. unfold start_conversion.
  destruct (image_files g); [done|]. by rewrite bool_decide_eq_false_2.
Qed.



(** * Further properties of the catalogue operations *)

Section RemoveSelected.

Implicit Types (lb : Listbox.t) (a pre : list string).

Lemma remove_fold_out_of_range (indices : list nat) a :
  Forall (λ i, (length a ≤ i)%nat) indices →
  foldl (λ a i, if bool_decide (i < length a)%nat then delete i a else a)
        a indices = a.
Proof.
  induction 1 as [|i indices Hi _ IH]; [done|]. simpl.
  by rewrite bool_decide_eq_false_2 by lia.
Qed.

Lemma curselection_from_ge k lb :
  Forall (λ i, (k ≤ i)%nat) (Listbox.curselection_from k lb).
Proof.
  apply Forall_forall. intros i Hi.
  apply elem_of_curselection_from in Hi. lia.
Qed.

Lemma remove_fold_unselected lb : ∀ pre a,
  foldl (λ a i, if bool_decide (i < length a)%nat then delete i a else a)
        (pre ++ a) (reverse (Listbox.curselection_from (length pre) lb))
  = pre ++ unselected_entries lb a.
Proof.
  induction lb as [|b lb IH]; intros pre a; [done|].
  destruct a as [|x a].
  - simpl unselected_entries. apply remove_fold_out_of_range.
    apply Forall_reverse. rewrite app_nil_r.
    apply (curselection_from_ge (length pre) (b :: lb)).
  - specialize (IH (pre ++ [x]) a).
    rewrite length_app, Nat.add_1_r, <- app_assoc in IH. simpl in IH.
    destruct b; simpl.
    + rewrite reverse_cons, foldl_app, IH. simpl.
      rewrite !length_app. simpl.
      rewrite bool_decide_eq_true_2 by lia.
      rewrite <- app_assoc. simpl. apply delete_middle.
    + rewrite IH. by rewrite <- app_assoc.
Qed.

End RemoveSelected.


(** X2.  [reverse_selection] has the effect of [select_all]: whatever was
    selected before, every row is selected afterwards. *)
Theorem reverse_selection_is_select_all (g : gui) :
  reverse_selection g = select_all g
  ∧ Listbox.curselection (listbox (reverse_selection g))
    = seq 0 (Listbox.size (listbox g)).
Proof.
  assert (reverse_selection g = select_all g) as Heq.
  { pose proof (reverse_selection_selects_all g) as Hall.
    unfold reverse_selection, select_all in *. simpl in Hall.
    unfold Listbox.selection_set_all, Listbox.size in *. by rewrite Hall. }
  split; [done|]. rewrite reverse_selection_selects_all.
  unfold Listbox.curselection, Listbox.size.
  generalize (length (listbox g)), 0%nat.
  induction n as [|n IH]; intros k; [done|]. simpl. by rewrite IH.
Qed.

Section Reselect.

Implicit Types (lb : Listbox.t) (targets sel : list nat) (i n : nat).

Lemma reselect_lookup_true targets lb i :
  reselect targets lb !! i = Some true
  ↔ (i ∈ targets ∧ (i < length lb)%nat) ∨ lb !! i = Some true.
Proof.
  split.
  - unfold reselect. revert lb.
    induction targets as [|t ts IH]; intros lb; simpl; [by right|].
    intros Hi. apply IH in Hi as [[Hin Hlt]|Hi].
    + left. unfold Listbox.selection_set in Hlt. rewrite length_insert in Hlt.
      split; [by right|done].
    + unfold Listbox.selection_set in Hi.
      destruct (decide (t = i)) as [->|Hne].
      * left. split; [by left|].
        apply lookup_lt_Some in Hi. by rewrite length_insert in Hi.
      * right. by rewrite list_lookup_insert_ne in Hi.
  - intros [[Hin Hlt]|Hi]; [by apply reselect_selects|by apply reselect_keeps].
Qed.

Lemma StronglySorted_lt_NoDup (l : list nat) : StronglySorted lt l → NoDup l.
Proof.
  induction 1 as [|i l _ IH Hfirst]; constructor; [|done].
  intros Hin. rewrite Forall_forall in Hfirst. specialize (Hfirst i Hin). lia.
Qed.

Lemma sorted_lt_ext (l1 l2 : list nat) :
  StronglySorted lt l1 → StronglySorted lt l2 →
  (∀ i, i ∈ l1 ↔ i ∈ l2) → l1 = l2.
Proof.
  intros Hs1 Hs2 Hext. apply (Sorted_unique_strong lt).
  - intros x1 x2 _ _ Hlt Hgt. lia.
  - by apply StronglySorted_Sorted.
  - by apply StronglySorted_Sorted.
  - apply NoDup_Permutation; [by apply StronglySorted_lt_NoDup..|done].
Qed.

Lemma curselection_reselect sel n :
  StronglySorted lt sel → Forall (λ i, (i < n)%nat) sel →
  Listbox.curselection (reselect sel (Listbox.rebuilt n)) = sel.
Proof.
  intros Hsorted Hrange. apply sorted_lt_ext; [apply curselection_sorted|done|].
  intros i. rewrite elem_of_curselection, reselect_lookup_true.
  unfold Listbox.rebuilt. rewrite length_replicate. split.
  - intros [[Hin _]|Hi]; [done|]. by apply lookup_replicate in Hi as [? _].
  - intros Hin. left. split; [done|].
    rewrite Forall_forall in Hrange. by apply Hrange.
Qed.

Lemma listbox_as_reselect lb :
  reselect (Listbox.curselection lb) (Listbox.rebuilt (length lb)) = lb.
Proof.
  apply list_eq. intros i. unfold Listbox.rebuilt.
  destruct (lb !! i) as [b|] eqn:Hb.
  - pose proof (lookup_lt_Some _ _ _ Hb) as Hlt.
    destruct (lookup_lt_is_Some_2
                (reselect (Listbox.curselection lb) (replicate (length lb) false)) i)
      as [c Hc]; [by rewrite reselect_length, length_replicate|].
    rewrite Hc. f_equal. destruct b.
    + assert (reselect (Listbox.curselection lb) (replicate (length lb) false) !! i
              = Some true) as Ht; [|congruence].
      apply reselect_selects; [by apply elem_of_curselection|].
      by rewrite length_replicate.
    + destruct c; [|done].
      apply reselect_lookup_true in Hc as [[Hin _]|Hi].
      * apply elem_of_curselection in Hin. congruence.
      * by apply lookup_replicate in Hi as [? _].
  - apply lookup_ge_None. rewrite reselect_length, length_replicate.
    by apply lookup_ge_None.
Qed.

Lemma sorted_pred sel :
  StronglySorted lt sel → Forall (λ i, (1 ≤ i)%nat) sel →
  StronglySorted lt ((λ i, (i - 1)%nat) <$> sel).
Proof.
  induction 1 as [|i l _ IH Hfirst]; intros Hpos; [constructor|].
  apply Forall_cons in Hpos as [Hi Hpos]. rewrite fmap_cons.
  constructor; [by apply IH|]. apply Forall_fmap, Forall_forall.
  intros j Hj. simpl. rewrite Forall_forall in Hfirst, Hpos.
  specialize (Hfirst j Hj). lia.
Qed.

Lemma sorted_succ sel :
  StronglySorted lt sel → StronglySorted lt ((λ i, (i + 1)%nat) <$> sel).
Proof. apply StronglySorted_fmap. intros. lia. Qed.

End Reselect.

Section MoveResult.

Implicit Types (g : gui).

Lemma move_up_result g :
  rows_match g →
  Listbox.curselection (listbox g) ≠ [] →
  0%nat ∉ Listbox.curselection (listbox g) →
  let sel := Listbox.curselection (listbox g) in
  Forall (λ i, (1 ≤ i < length (image_files g))%nat) sel
  ∧ ∃ a', move_up_loop sel (image_files g) = Ok a'
          ∧ length a' = length (image_files g)
          ∧ move_up g
            = Ok (set_listbox
                    (reselect ((λ i, (i - 1)%nat) <$> sel)
                              (Listbox.rebuilt (length a')))
                    (set_image_files a' g)).
Proof.
  intros Hrows Hne H0 sel.
  pose proof (curselection_sorted (listbox g)) as Hsorted.
  pose proof (curselection_lt (listbox g)) as Hlt.
  assert (Hrange : Forall (λ i, (1 ≤ i < length (image_files g))%nat) sel).
  { apply Forall_forall. intros i Hi. split.
    - destruct (decide (i = 0%nat)) as [->|]; [done|lia].
    - rewrite <- Hrows. by apply Hlt. }
  split; [done|].
  destruct (move_up_loop_spec sel (image_files g) Hsorted Hrange)
    as (a' & Hloop & Hlen & _).
  exists a'. split_and!; [done..|].
  unfold move_up. fold sel. rewrite Hloop.
  destruct sel as [|first rest] eqn:Hsel; [done|].
  rewrite bool_decide_eq_false_2
    by (apply Forall_cons in Hrange as [? _]; lia).
  cbn [rbind]. unfold update_listbox, set_listbox, set_image_files.
  cbn [image_files path_entry format_var selected_format output_entry
       pdf_quality_var ppt_layout_var listbox ui_trace].
  do 2 f_equal. f_equal. apply Forall_fmap_ext.
  eapply Forall_impl; [exact Hrange|]. simpl. intros i Hi.
  by rewrite bool_decide_eq_true_2 by lia.
Qed.

Lemma move_down_result g :
  rows_match g →
  Listbox.curselection (listbox g) ≠ [] →
  (length (image_files g) - 1)%nat ∉ Listbox.curselection (listbox g) →
  let sel := Listbox.curselection (listbox g) in
  Forall (λ i, (i + 1 < length (image_files g))%nat) sel
  ∧ ∃ a', move_down_loop (reverse sel) (image_files g) = Ok a'
          ∧ length a' = length (image_files g)
          ∧ move_down g
            = Ok (set_listbox
                    (reselect ((λ i, (i + 1)%nat) <$> sel)
                              (Listbox.rebuilt (length a')))
                    (set_image_files a' g)).
Proof.
  intros Hrows Hne Hnotlast sel.
  pose proof (curselection_sorted (listbox g)) as Hsorted.
  pose proof (curselection_lt (listbox g)) as Hlt.
  assert (Hrange : Forall (λ i, (i + 1 < length (image_files g))%nat) sel).
  { apply Forall_forall. intros i Hi.
    pose proof (Hlt i Hi) as Hi'. rewrite Hrows in Hi'.
    destruct (decide (i = (length (image_files g) - 1)%nat)) as [->|];
      [done|lia]. }
  split; [done|].
  destruct (move_down_loop_spec sel (image_files g) Hsorted Hrange)
    as (a' & Hloop & Hlen & _).
  exists a'. split_and!; [done..|].
  unfold move_down. fold sel. rewrite Hloop.
  destruct (last sel) as [final|] eqn:Hlast.
  2: { apply last_None in Hlast. done. }
  assert (final ∈ sel) as Hfinal.
  { apply last_Some in Hlast as [l' ->]. set_solver. }
  rewrite Forall_forall in Hrange.
  rewrite bool_decide_eq_false_2 by (specialize (Hrange final Hfinal); lia).
  cbn [rbind]. unfold update_listbox, set_listbox, set_image_files.
  cbn [image_files path_entry format_var selected_format output_entry
       pdf_quality_var ppt_layout_var listbox ui_trace].
  do 2 f_equal. f_equal. apply Forall_fmap_ext, Forall_forall.
  intros i Hi. simpl. specialize (Hrange i Hi).
  by rewrite bool_decide_eq_true_2 by lia.
Qed.

End MoveResult.

Section RoundTrip.

Implicit Types (a : list string) (sel : list nat) (g : gui).

Lemma swap_items_back i j a a' :
  swap_items i j a = Ok a' → swap_items j i a' = Ok a.
Proof.
  unfold swap_items. intros Hswap.
  destruct (a !! j) as [aj|] eqn:Hj; [|done].
  destruct (a !! i) as [ai|] eqn:Hi; [|done].
  injection Hswap as <-.
  pose proof (lookup_lt_Some _ _ _ Hi) as Hilt.
  pose proof (lookup_lt_Some _ _ _ Hj) as Hjlt.
  destruct (decide (i = j)) as [->|Hne].
  - rewrite list_lookup_insert_eq by by rewrite length_insert.
    rewrite !list_insert_insert_eq. f_equal. apply list_insert_id. congruence.
  - rewrite (list_lookup_insert_ne _ j i) by done.
    rewrite list_lookup_insert_eq by done.
    rewrite list_lookup_insert_eq by by rewrite length_insert.
    f_equal. apply list_eq. intros k.
    destruct (decide (k = i)) as [->|Hki].
    + rewrite list_lookup_insert_eq by by rewrite !length_insert. done.
    + rewrite list_lookup_insert_ne by done.
      destruct (decide (k = j)) as [->|Hkj].
      * rewrite list_lookup_insert_eq by by rewrite !length_insert. done.
      * by rewrite !list_lookup_insert_ne by done.
Qed.

Lemma move_up_loop_undone sel : ∀ a a',
  Forall (λ i, (1 ≤ i < length a)%nat) sel →
  move_up_loop sel a = Ok a' →
  move_down_loop (reverse ((λ i, (i - 1)%nat) <$> sel)) a' = Ok a.
Proof.
  induction sel as [|i rest IH]; intros a a' Hrange Hup.
  - by injection Hup as <-.
  - apply Forall_cons in Hrange as [Hi Hrange]. simpl in Hup.
    rewrite bool_decide_eq_true_2 in Hup by lia.
    destruct (swap_items i (i - 1) a) as [a1|] eqn:Hswap; [|done].
    simpl in Hup.
    pose proof (swap_items_spec _ _ _ _ Hswap ltac:(lia)) as (Hlen1 & _).
    assert (Hlen' : length a' = length a1).
    { clear -Hup. revert a1 Hup. induction rest as [|k ks IHk]; intros a1 Hup.
      - by injection Hup as <-.
      - simpl in Hup. case_bool_decide; [|by apply IHk].
        destruct (swap_items k (k - 1) a1) as [a2|] eqn:Hs; [|done].
        simpl in Hup. rewrite (IHk _ Hup).
        unfold swap_items in Hs. repeat case_match; try done.
        injection Hs as <-. by rewrite !length_insert. }
    rewrite fmap_cons, reverse_cons, move_down_loop_app.
    rewrite (IH a1 a').
    + simpl. rewrite bool_decide_eq_true_2 by lia.
      replace (i - 1 + 1)%nat with i by lia.
      by rewrite (swap_items_back _ _ _ _ Hswap).
    + eapply Forall_impl; [exact Hrange|]. simpl. intros. lia.
    + done.
Qed.

Lemma move_down_loop_length order : ∀ a a',
  move_down_loop order a = Ok a' → length a' = length a.
Proof.
  induction order as [|k ks IH]; intros a a' Hdown.
  - by injection Hdown as <-.
  - simpl in Hdown. case_bool_decide; [|by apply IH].
    destruct (swap_items k (k + 1) a) as [a2|] eqn:Hs; [|done].
    simpl in Hdown. rewrite (IH _ _ Hdown).
    unfold swap_items in Hs. repeat case_match; try done.
    injection Hs as <-. by rewrite !length_insert.
Qed.

Lemma move_down_loop_undone sel : ∀ a a',
  Forall (λ i, (i + 1 < length a)%nat) sel →
  move_down_loop (reverse sel) a = Ok a' →
  move_up_loop ((λ i, (i + 1)%nat) <$> sel) a' = Ok a.
Proof.
  induction sel as [|i rest IH]; intros a a' Hrange Hdown.
  - by injection Hdown as <-.
  - apply Forall_cons in Hrange as [Hi Hrange].
    rewrite reverse_cons, move_down_loop_app in Hdown.
    destruct (move_down_loop (reverse rest) a) as [a1|] eqn:Hrest; [|done].
    pose proof (move_down_loop_length _ _ _ Hrest) as Hlen1.
    simpl in Hdown. rewrite bool_decide_eq_true_2 in Hdown by lia.
    destruct (swap_items i (i + 1) a1) as [a2|] eqn:Hswap; [|done].
    injection Hdown as <-.
    rewrite fmap_cons. simpl. rewrite bool_decide_eq_true_2 by lia.
    replace (i + 1 - 1)%nat with i by lia.
    rewrite (swap_items_back _ _ _ _ Hswap). simpl. by apply IH.
Qed.

End RoundTrip.

Section MoveSelection.

Implicit Types (g : gui).

Lemma curselection_after_move_up g :
  rows_match g →
  Listbox.curselection (listbox g) ≠ [] →
  0%nat ∉ Listbox.curselection (listbox g) →
  ∃ g', move_up g = Ok g'
        ∧ Listbox.curselection (listbox g')
          = (λ i, (i - 1)%nat) <$> Listbox.curselection (listbox g).
Proof.
  intros Hrows Hne H0.
  pose proof (curselection_sorted (listbox g)) as Hsorted.
  destruct (move_up_result g Hrows Hne H0) as (Hrange & a' & _ & Hlen & ->).
  eexists. split; [done|]. cbn [listbox set_listbox].
  apply curselection_reselect.
  - apply sorted_pred; [done|].
    eapply Forall_impl; [exact Hrange|]. simpl. intros. lia.
  - apply Forall_fmap. eapply Forall_impl; [exact Hrange|].
    simpl. intros. lia.
Qed.

Lemma curselection_after_move_down g :
  rows_match g →
  Listbox.curselection (listbox g) ≠ [] →
  (length (image_files g) - 1)%nat ∉ Listbox.curselection (listbox g) →
  ∃ g', move_down g = Ok g'
        ∧ Listbox.curselection (listbox g')
          = (λ i, (i + 1)%nat) <$> Listbox.curselection (listbox g).
Proof.
  intros Hrows Hne Hlast.
  pose proof (curselection_sorted (listbox g)) as Hsorted.
  destruct (move_down_result g Hrows Hne Hlast) as (Hrange & a' & _ & Hlen & ->).
  eexists. split; [done|]. cbn [listbox set_listbox].
  apply curselection_reselect.
  - by apply sorted_succ.
  - apply Forall_fmap. eapply Forall_impl; [exact Hrange|].
    simpl. intros. lia.
Qed.

Lemma window_restored g a lb :
  a = image_files g → lb = listbox g →
  set_listbox lb (set_image_files a g) = g.
Proof. intros -> ->. by destruct g. Qed.

Lemma set_listbox_twice g lb1 lb2 a1 a2 :
  set_listbox lb2 (set_image_files a2 (set_listbox lb1 (set_image_files a1 g)))
  = set_listbox lb2 (set_image_files a2 g).
Proof. done. Qed.

End MoveSelection.









(** * Further properties of the exporters *)

Section LoopPrefix.

Lemma for_each_app {S A} (body : A → S → S * result unit)
    (items1 items2 : list A) (s : S) :
  for_each body (items1 ++ items2) s
  = match for_each body items1 s with
    | (s', Ok _) => for_each body items2 s'
    | (s', Raise e) => (s', Raise e)
    end.
Proof.
  revert s. induction items1 as [|x items1 IH]; intros s; [done|].
  simpl. destruct (body x s) as [s' [[]|e]]; [apply IH|done].
Qed.

Lemma enumerate_from_app {A} (l1 l2 : list A) (start : nat) :
  zip (seq start (length (l1 ++ l2))) (l1 ++ l2)
  = zip (seq start (length l1)) l1
    ++ zip (seq (start + length l1) (length l2)) l2.
Proof.
  revert start. induction l1 as [|x l1 IH]; intros start; simpl.
  - by rewrite Nat.add_0_r.
  - f_equal. rewrite IH. do 3 f_equal. lia.
Qed.

Lemma enumerate_split {A} (pre post : list A) (x : A) :
  ∃ items1 items2,
    enumerate (pre ++ x :: post) = items1 ++ (length pre, x) :: items2
    ∧ items1 = enumerate pre.
Proof.
  unfold enumerate. rewrite enumerate_from_app. simpl.
  by eexists _, _.
Qed.

End LoopPrefix.

Section MissingFile.

Context (w : world) (g : gui) (output_file : string).
Context (pre post : list string) (filepath : string).
Hypothesis Hfiles : image_files g = pre ++ filepath :: post.
Hypothesis Hready : Forall (λ p, file_ready w p = true) pre.
Hypothesis Hmissing : w_files w !! filepath = None.

Lemma missing_file_pdf :
  ∃ trace, convert_to_pdf w g output_file = (trace, Raise (OSError filepath)).
Proof.
  unfold convert_to_pdf. destruct (pdf_settings (pdf_quality_var g)) as [c q].
  rewrite Hfiles.
  destruct (enumerate_split pre post filepath) as (items1 & items2 & -> & ->).
  rewrite for_each_app, pdf_loop_run.
  - simpl. rewrite Hmissing. by eexists.
  - apply (enumerate_Forall (λ p, is_Some (w_files w !! p))).
    eapply Forall_impl; [exact Hready|]. apply file_ready_present.
Qed.

Lemma missing_file_ppt :
  ∃ trace, convert_to_ppt w g output_file = (trace, Raise (OSError filepath)).
Proof.
  unfold convert_to_ppt. rewrite Hfiles.
  destruct (enumerate_split pre post filepath) as (items1 & items2 & -> & ->).
  rewrite for_each_app, ppt_loop_run.
  - simpl. rewrite Hmissing. by eexists.
  - by apply (enumerate_Forall (λ p, file_ready w p = true)).
Qed.

End MissingFile.

(** X7.  A catalogue entry whose file has gone missing ends the batch:
    the size query for it raises outside the per-image [try], so both
    exporters stop there without saving, and the run is reported as
    failed with that cause, the convert button being enabled again. *)
Theorem missing_file_aborts_batch (w : world) (g : gui) (output_file : string)
    (pre post : list string) (filepath : string) :
  image_files g = pre ++ filepath :: post →
  Forall (λ p, file_ready w p = true) pre →
  w_files w !! filepath = None →
  (convert_to_pdf w g output_file).2 = Raise (OSError filepath)
  ∧ (convert_to_ppt w g output_file).2 = Raise (OSError filepath)
  ∧ (EvLog LogPdfSaving ∉ (convert_to_pdf w g output_file).1)
  ∧ (EvLog LogPptSaving ∉ (convert_to_ppt w g output_file).1)
  ∧ (convert_images w g output_file).2 = None
  ∧ ∃ trace,
      ui_trace (convert_images w g output_file).1
      = ui_trace g ++ trace
        ++ [EvLog (LogConvertFailed (OSError filepath));
            EvStatus StatusFailed;
            EvDialog (ErrorFailed (OSError filepath));
            EvConvertButton true].
Proof.
  intros Hfiles Hready Hmissing.
  destruct (missing_file_pdf w g output_file pre post filepath Hfiles Hready
              Hmissing) as [tpdf Hpdf].
  destruct (missing_file_ppt w g output_file pre post filepath Hfiles Hready
              Hmissing) as [tppt Hppt].
  assert (Hnosave_pdf : EvLog LogPdfSaving ∉ tpdf).
  { revert Hpdf. unfold convert_to_pdf.
    destruct (pdf_settings (pdf_quality_var g)) as [c q].
    rewrite Hfiles.
    destruct (enumerate_split pre post filepath) as (items1 & items2 & -> & ->).
    rewrite for_each_app, pdf_loop_run.
    2: { apply (enumerate_Forall (λ p, is_Some (w_files w !! p))).
         eapply Forall_impl; [exact Hready|]. apply file_ready_present. }
    simpl. rewrite Hmissing. intros [= <-].
    rewrite not_elem_of_cons. split; [done|].
    intros Hin. apply list_elem_of_bind in Hin as ([i p] & Hin & Hitem).
    unfold pdf_item_events, pdf_body in Hin.
    destruct (w_files w !! p) as [f|]; simpl in Hin; [|by apply elem_of_nil in Hin].
    destruct (pdf_try f c q p []) as [pg [[]|e]]; simpl in Hin;
      repeat (apply elem_of_cons in Hin as [Hin|Hin]; [done|]);
      by apply elem_of_nil in Hin. }
  assert (Hnosave_ppt : EvLog LogPptSaving ∉ tppt).
  { revert Hppt. unfold convert_to_ppt. rewrite Hfiles.
    destruct (enumerate_split pre post filepath) as (items1 & items2 & -> & ->).
    rewrite for_each_app, ppt_loop_run
      by by apply (enumerate_Forall (λ p, file_ready w p = true)).
    simpl. rewrite Hmissing. intros [= <-].
    rewrite not_elem_of_cons. split; [done|].
    intros Hin. apply list_elem_of_bind in Hin as ([i p] & Hin & Hitem).
    unfold ppt_item_events, ppt_body in Hin.
    destruct (w_files w !! p) as [f|]; simpl in Hin; [|by apply elem_of_nil in Hin].
    destruct (f_image f) as [img|]; simpl in Hin.
    - destruct (ppt_geometry _ _ _) as [[[[? ?] ?] ?]|e]; simpl in Hin;
        [destruct (f_pptx_ok f); simpl in Hin|];
        repeat (apply elem_of_cons in Hin as [Hin|Hin]; [done|]);
        by apply elem_of_nil in Hin.
    - repeat (apply elem_of_cons in Hin as [Hin|Hin]; [done|]);
        by apply elem_of_nil in Hin. }
  split; [by rewrite Hpdf|]. split; [by rewrite Hppt|].
  split; [rewrite Hpdf; exact Hnosave_pdf|].
  split; [rewrite Hppt; exact Hnosave_ppt|].
  unfold convert_images. rewrite Hpdf, Hppt.
  case_bool_decide; simpl; (split; [reflexivity|]); eexists; reflexivity.
Qed.

Lemma missing_file_aborts_batch_witness :
  let w := sample_world []
             (list_to_map
                [("/p/a.png", File 100 (Some (Image 40 30 "RGB" true)) true true)]) in
  let g := sample_gui ["/p/a.png"; "/p/gone.png"; "/p/c.png"]
                      [false; false; false] in
  (convert_to_pdf w g "/p/out.pdf").2 = Raise (OSError "/p/gone.png")
  ∧ (convert_images w g "/p/out.pdf").2 = None.
Proof.
  intros w g.
  destruct (missing_file_aborts_batch w g "/p/out.pdf" ["/p/a.png"]
              ["/p/c.png"] "/p/gone.png")
    as (Hpdf & _ & _ & _ & Hrun & _).
  - reflexivity.
  - repeat (constructor; [reflexivity|]). constructor.
  - reflexivity.
  - split; [exact Hpdf|exact Hrun].
Defined.

(** X8.  However the worker ends, its last act is to enable the convert
    button again, after exactly one closing report: success (log line,
    green status, information dialog), and then only if the document was
    saved, or failure with the exception that ended the export.  Nothing
    but the widgets written to changes. *)
Theorem convert_images_closing (w : world) (g : gui) (output_file : string) :
  ∃ trace closing,
    ui_trace (convert_images w g output_file).1
    = ui_trace g ++ trace ++ closing ++ [EvConvertButton true]
    ∧ image_files (convert_images w g output_file).1 = image_files g
    ∧ listbox (convert_images w g output_file).1 = listbox g
    ∧ output_entry (convert_images w g output_file).1 = output_entry g
    ∧ match (convert_images w g output_file).2 with
      | Some doc =>
          closing = [EvLog (LogConvertDone output_file);
                     EvStatus StatusSuccess;
                     EvDialog (InfoDone output_file)]
          ∧ is_Some (w_save w output_file)
      | None =>
          ∃ e, closing = [EvLog (LogConvertFailed e);
                          EvStatus StatusFailed;
                          EvDialog (ErrorFailed e)]
      end.
Proof.
  unfold convert_images, convert_to_pdf, convert_to_ppt.
  destruct (pdf_settings (pdf_quality_var g)) as [c q].
  destruct (for_each (pdf_body _ _ _ _ _) _ _) as [sp [[]|ep]];
  destruct (for_each (ppt_body _ _ _) _ _) as [ss [[]|es]];
  destruct (w_save w output_file) as [size|];
  case_bool_decide; simpl;
    eexists _, [_; _; _]; (split; [reflexivity|]); eauto 10.
Qed.

(** X9.  When the document cannot be saved, every entry has been
    processed by then, both exporters raise the save error after the
    "saving" log line, and the run is reported as failed with that cause,
    without a document. *)
Theorem save_failure_fails_run (w : world) (g : gui) (output_file : string) :
  Forall (λ p, file_ready w p = true) (image_files g) →
  w_save w output_file = None →
  (convert_to_pdf w g output_file).2 = Raise (SaveError output_file)
  ∧ (convert_to_ppt w g output_file).2 = Raise (SaveError output_file)
  ∧ last (convert_to_pdf w g output_file).1 = Some (EvLog LogPdfSaving)
  ∧ last (convert_to_ppt w g output_file).1 = Some (EvLog LogPptSaving)
  ∧ (convert_images w g output_file).2 = None
  ∧ EvDialog (ErrorFailed (SaveError output_file))
    ∈ ui_trace (convert_images w g output_file).1.
Proof.
  intros Hready Hsave.
  assert (Hpresent : Forall (λ p, is_Some (w_files w !! p)) (image_files g)).
  { eapply Forall_impl; [exact Hready|]. apply file_ready_present. }
  assert (Hpdf : ∃ trace,
    convert_to_pdf w g output_file
    = (trace ++ [EvLog LogPdfSaving], Raise (SaveError output_file))).
  { unfold convert_to_pdf.
    destruct (pdf_settings (pdf_quality_var g)) as [c q].
    rewrite pdf_loop_run
      by exact (enumerate_Forall (λ p, is_Some (w_files w !! p)) _ Hpresent).
    rewrite Hsave. by eexists. }
  assert (Hppt : ∃ trace,
    convert_to_ppt w g output_file
    = (trace ++ [EvLog LogPptSaving], Raise (SaveError output_file))).
  { unfold convert_to_ppt.
    rewrite ppt_loop_run
      by exact (enumerate_Forall (λ p, file_ready w p = true) _ Hready).
    rewrite Hsave. by eexists. }
  destruct Hpdf as [tp Hpdf]. destruct Hppt as [ts Hppt].
  unfold convert_images. rewrite Hpdf, Hppt. cbn [fst snd].
  rewrite !last_snoc. split_and!; [done..| |].
  - by case_bool_decide.
  - case_bool_decide; simpl; rewrite !elem_of_app, !elem_of_cons;
      naive_solver.
Qed.

Lemma save_failure_fails_run_witness :
  let w := World posixpath.ops (λ _, true) (λ _, []) SUPPORTED_FORMATS
                 (w_files batch_second_unreadable) (λ _, None) in
  (convert_to_pdf w batch_gui "/p/out.pdf").2 = Raise (SaveError "/p/out.pdf")
  ∧ (convert_images w batch_gui "/p/out.pdf").2 = None.
Proof.
  intros w.
  destruct (save_failure_fails_run w batch_gui "/p/out.pdf")
    as (Hpdf & _ & _ & _ & Hrun & _).
  - repeat (constructor; [reflexivity|]). constructor.
  - reflexivity.
  - split; [exact Hpdf|exact Hrun].
Defined.

Section Traces.

Context (w : world) (g : gui) (output_file : string).

Lemma convert_to_pdf_trace :
  Forall (λ p, is_Some (w_files w !! p)) (image_files g) →
  (convert_to_pdf w g output_file).1
  = [EvLog (LogPdfStart (pdf_quality_var g))]
    ++ (enumerate (image_files g)
          ≫= pdf_item_events w (pdf_quality_var g)
               (pdf_settings (pdf_quality_var g)).1
               (pdf_settings (pdf_quality_var g)).2
               (length (image_files g)))
    ++ EvLog LogPdfSaving
       :: match w_save w output_file with
          | None => []
          | Some size =>
              let total :=
                foldr Z.add 0%Z (pdf_item_size w <$> image_files g) in
              [EvLog LogPdfDone; EvLog (LogPdfSourceSize total);
               EvLog (LogPdfSize size);
               EvLog (LogPdfRatio (compression_ratio size total))]
          end.
Proof.
  intros Hpresent. unfold convert_to_pdf.
  destruct (pdf_settings (pdf_quality_var g)) as [c q]. simpl.
  rewrite pdf_loop_run
    by exact (enumerate_Forall (λ p, is_Some (w_files w !! p)) _ Hpresent).
  rewrite enumerate_snd. cbn [pdf_trace pdf_pages pdf_total_size].
  destruct (w_save w output_file) as [size|]; simpl; by rewrite <- ?app_assoc.
Qed.

Lemma convert_to_ppt_trace :
  Forall (λ p, file_ready w p = true) (image_files g) →
  (convert_to_ppt w g output_file).1
  = [EvLog LogPptStart]
    ++ (enumerate (image_files g)
          ≫= ppt_item_events w (ppt_layout_var g) (length (image_files g)))
    ++ EvLog LogPptSaving
       :: match w_save w output_file with
          | None => []
          | Some size =>
              [EvLog LogPptDone;
               EvLog (LogPptSlides (length (image_files g)));
               EvLog (LogPptSize size)]
          end.
Proof.
  intros Hready. unfold convert_to_ppt.
  rewrite ppt_loop_run
    by exact (enumerate_Forall (λ p, file_ready w p = true) _ Hready).
  cbn [ppt_trace ppt_slides].
  destruct (w_save w output_file) as [size|]; simpl; by rewrite <- ?app_assoc.
Qed.

Lemma omap_bind_one {A B C} (f : B → option C) (events : A → list B)
    (h : A → C) (items : list A) :
  Forall (λ x, omap f (events x) = [h x]) items →
  omap f (items ≫= events) = h <$> items.
Proof.
  induction 1 as [|x items Hx _ IH]; [done|].
  by rewrite bind_cons, omap_app, Hx, IH.
Qed.

Lemma item_numbers_pdf_item quality_mode c q n (item : nat * string) :
  is_Some (w_files w !! item.2) →
  item_numbers (pdf_item_events w quality_mode c q n item)
  = [((item.1 + 1)%nat, n)].
Proof.
  destruct item as [i p]. intros [f Hf].
  unfold pdf_item_events, pdf_body. simpl in *. rewrite Hf.
  by destruct (pdf_try f c q p []) as [pg [[]|e]].
Qed.

Lemma item_numbers_ppt_item layout n (item : nat * string) :
  file_ready w item.2 = true →
  item_numbers (ppt_item_events w layout n item) = [((item.1 + 1)%nat, n)].
Proof.
  destruct item as [i p]. unfold file_ready, ppt_item_events, ppt_body. simpl.
  destruct (w_files w !! p) as [f|]; [|done].
  destruct (f_image f) as [img|]; [|done].
  intros Hdims. apply andb_true_iff in Hdims as [Hw Hh].
  apply Z.ltb_lt in Hw, Hh.
  destruct (ppt_geometry_Ok layout _ _ Hw Hh)
    as ([[[left_ top_] width] height] & ->).
  by destruct (f_pptx_ok f).
Qed.

Lemma outcome_pdf_item quality_mode c q n (item : nat * string) :
  is_Some (w_files w !! item.2) →
  (length (progress_events (pdf_item_events w quality_mode c q n item))
   + length (warnings (pdf_item_events w quality_mode c q n item)) = 1)%nat.
Proof.
  destruct item as [i p]. intros [f Hf].
  unfold pdf_item_events, pdf_body. simpl in *. rewrite Hf.
  by destruct (pdf_try f c q p []) as [pg [[]|e]].
Qed.

Lemma outcome_ppt_item layout n (item : nat * string) :
  file_ready w item.2 = true →
  (length (progress_events (ppt_item_events w layout n item))
   + length (warnings (ppt_item_events w layout n item)) = 1)%nat.
Proof.
  destruct item as [i p]. unfold file_ready, ppt_item_events, ppt_body. simpl.
  destruct (w_files w !! p) as [f|]; [|done].
  destruct (f_image f) as [img|]; [|done].
  intros Hdims. apply andb_true_iff in Hdims as [Hw Hh].
  apply Z.ltb_lt in Hw, Hh.
  destruct (ppt_geometry_Ok layout _ _ Hw Hh)
    as ([[[left_ top_] width] height] & ->).
  by destruct (f_pptx_ok f).
Qed.

Lemma outcome_bind {A} (events : A → list ui_event) (items : list A) :
  Forall (λ x, (length (progress_events (events x))
                + length (warnings (events x)) = 1)%nat) items →
  (length (progress_events (items ≫= events))
   + length (warnings (items ≫= events)) = length items)%nat.
Proof.
  induction 1 as [|x items Hx _ IH]; [done|].
  rewrite bind_cons. unfold progress_events, warnings in *.
  rewrite !omap_app, !length_app. simpl. lia.
Qed.

End Traces.

(** X10.  Every entry of the batch is announced in the log before it is
    tried, skipped or not: the per-entry log lines of an export over [n]
    present files are numbered 1/n, 2/n, ..., n/n, in this order. *)
Theorem every_entry_is_announced (w : world) (g : gui) (output_file : string) :
  Forall (λ p, file_ready w p = true) (image_files g) →
  let n := length (image_files g) in
  item_numbers (convert_to_pdf w g output_file).1
  = (λ i, ((i + 1)%nat, n)) <$> seq 0 n
  ∧ item_numbers (convert_to_ppt w g output_file).1
    = (λ i, ((i + 1)%nat, n)) <$> seq 0 n.
Proof.
  intros Hready n.
  assert (Hpresent : Forall (λ p, is_Some (w_files w !! p)) (image_files g)).
  { eapply Forall_impl; [exact Hready|]. apply file_ready_present. }
  assert (Hnumbers : (λ ip : nat * string, ((ip.1 + 1)%nat, n))
                       <$> enumerate (image_files g)
                     = (λ i, ((i + 1)%nat, n)) <$> seq 0 n).
  { unfold n. rewrite <- (enumerate_fst (image_files g)).
    by rewrite <- list_fmap_compose. }
  split.
  - rewrite convert_to_pdf_trace by done. unfold item_numbers.
    rewrite !omap_app. fold item_numbers.
    rewrite (omap_bind_one _ _ (λ ip : nat * string, ((ip.1 + 1)%nat, n))).
    + rewrite Hnumbers. simpl. destruct (w_save w output_file); simpl;
        by rewrite app_nil_r.
    + apply Forall_forall. intros item Hitem.
      apply item_numbers_pdf_item.
      pose proof (enumerate_Forall (λ p, is_Some (w_files w !! p)) _ Hpresent)
        as Hall.
      rewrite Forall_forall in Hall. by apply Hall.
  - rewrite convert_to_ppt_trace by done. unfold item_numbers.
    rewrite !omap_app. fold item_numbers.
    rewrite (omap_bind_one _ _ (λ ip : nat * string, ((ip.1 + 1)%nat, n))).
    + rewrite Hnumbers. simpl. destruct (w_save w output_file); simpl;
        by rewrite app_nil_r.
    + apply Forall_forall. intros item Hitem.
      apply item_numbers_ppt_item.
      pose proof (enumerate_Forall (λ p, file_ready w p = true) _ Hready)
        as Hall.
      rewrite Forall_forall in Hall. by apply Hall.
Qed.

Lemma every_entry_is_announced_witness :
  item_numbers (convert_to_pdf batch_second_unreadable batch_gui "/p/out.pdf").1
  = [(1%nat, 3%nat); (2%nat, 3%nat); (3%nat, 3%nat)].
Proof.
  destruct (every_entry_is_announced batch_second_unreadable batch_gui
              "/p/out.pdf") as [Hpdf _].
  - repeat (constructor; [reflexivity|]). constructor.
  - exact Hpdf.
Defined.

(** X11.  Every entry of a batch of present files ends in exactly one of
    two ways, a progress update or a logged warning: over [n] entries the
    progress updates and the warnings add up to [n]. *)
Theorem progress_or_warning_per_entry (w : world) (g : gui)
    (output_file : string) :
  Forall (λ p, file_ready w p = true) (image_files g) →
  let n := length (image_files g) in
  (length (progress_events (convert_to_pdf w g output_file).1)
   + length (warnings (convert_to_pdf w g output_file).1) = n)%nat
  ∧ (length (progress_events (convert_to_ppt w g output_file).1)
     + length (warnings (convert_to_ppt w g output_file).1) = n)%nat.
Proof.
  intros Hready n.
  assert (Hpresent : Forall (λ p, is_Some (w_files w !! p)) (image_files g)).
  { eapply Forall_impl; [exact Hready|]. apply file_ready_present. }
  assert (Hn : length (enumerate (image_files g)) = n).
  { by rewrite <- (length_fmap snd), enumerate_snd. }
  split.
  - rewrite convert_to_pdf_trace by done.
    pose proof (outcome_bind
      (pdf_item_events w (pdf_quality_var g)
         (pdf_settings (pdf_quality_var g)).1
         (pdf_settings (pdf_quality_var g)).2 (length (image_files g)))
      (enumerate (image_files g))) as Hsum.
    rewrite Hn in Hsum. unfold progress_events, warnings in *.
    rewrite !omap_app, !length_app.
    destruct (w_save w output_file); simpl; rewrite <- Hsum; try lia.
    all: apply Forall_forall; intros item Hitem; apply outcome_pdf_item;
      pose proof (enumerate_Forall (λ p, is_Some (w_files w !! p)) _ Hpresent)
        as Hall; rewrite Forall_forall in Hall; by apply Hall.
  - rewrite convert_to_ppt_trace by done.
    pose proof (outcome_bind
      (ppt_item_events w (ppt_layout_var g) (length (image_files g)))
      (enumerate (image_files g))) as Hsum.
    rewrite Hn in Hsum. unfold progress_events, warnings in *.
    rewrite !omap_app, !length_app.
    destruct (w_save w output_file); simpl; rewrite <- Hsum; try lia.
    all: apply Forall_forall; intros item Hitem; apply outcome_ppt_item;
      pose proof (enumerate_Forall (λ p, file_ready w p = true) _ Hready)
        as Hall; rewrite Forall_forall in Hall; by apply Hall.
Qed.

Lemma progress_or_warning_per_entry_witness :
  (length (progress_events
             (convert_to_ppt batch_second_rejected batch_gui "/p/out.pptx").1)
   + length (warnings
               (convert_to_ppt batch_second_rejected batch_gui "/p/out.pptx").1)
   = 3)%nat.
Proof.
  destruct (progress_or_warning_per_entry batch_second_rejected batch_gui
              "/p/out.pptx") as [_ Hppt].
  - repeat (constructor; [reflexivity|]). constructor.
  - exact Hppt.
Defined.

Section Documents.

Context (w : world).

Lemma pdf_item_size_file_size filepath :
  pdf_item_size w filepath = file_size w filepath.
Proof.
  unfold pdf_item_size, file_size, pdf_body.
  destruct (w_files w !! filepath) as [f|]; [|done].
  cbn [pdf_trace pdf_pages pdf_total_size].
  by destruct (pdf_try f "" None filepath []) as [pg [[]|e]].
Qed.

Lemma pdf_item_pages_lossless quality filepath :
  pdf_item_pages w "lossless" quality filepath
  = option_list (lossless_page w filepath).
Proof.
  unfold pdf_item_pages, lossless_page, pdf_body, pdf_try.
  destruct (w_files w !! filepath) as [f|]; [|done].
  destruct (f_image f) as [img|]; [|done]. simpl.
  by destruct (f_pdf_ok f).
Qed.

Lemma bind_option_list {A B} (f : A → option B) (l : list A) :
  l ≫= (λ x, option_list (f x)) = omap f l.
Proof.
  induction l as [|x l IH]; [done|].
  rewrite bind_cons, IH. simpl. by destruct (f x).
Qed.

Lemma ppt_item_slides_length layout filepath :
  file_ready w filepath = true →
  length (ppt_item_slides w layout filepath)
  = if opens w filepath then 1%nat else 0%nat.
Proof.
  unfold file_ready, ppt_item_slides, opens, ppt_body.
  destruct (w_files w !! filepath) as [f|]; [|done].
  destruct (f_image f) as [img|]; [|done].
  intros Hdims. apply andb_true_iff in Hdims as [Hw Hh].
  apply Z.ltb_lt in Hw, Hh.
  destruct (ppt_geometry_Ok layout _ _ Hw Hh)
    as ([[[left_ top_] width] height] & ->).
  by destruct (f_pptx_ok f).
Qed.

Lemma ppt_item_slides_pictures layout filepath :
  file_ready w filepath = true →
  picture_files (ppt_item_slides w layout filepath)
  = if ppt_entry_ok w filepath then [filepath] else [].
Proof.
  unfold file_ready, ppt_item_slides, ppt_entry_ok, ppt_body.
  destruct (w_files w !! filepath) as [f|]; [|done].
  destruct (f_image f) as [img|]; [|done].
  intros Hdims. apply andb_true_iff in Hdims as [Hw Hh].
  apply Z.ltb_lt in Hw, Hh.
  destruct (ppt_geometry_Ok layout _ _ Hw Hh)
    as ([[[left_ top_] width] height] & ->).
  by destruct (f_pptx_ok f).
Qed.

Lemma bind_filter_length {A B} (f : A → list B) (ok : A → bool) (l : list A) :
  Forall (λ x, length (f x) = if ok x then 1%nat else 0%nat) l →
  length (l ≫= f) = length (filter (λ x, ok x = true) l).
Proof.
  induction 1 as [|x l Hx _ IH]; [done|].
  rewrite bind_cons, length_app, Hx, IH, filter_cons.
  destruct (ok x); [by rewrite decide_True|by rewrite decide_False].
Qed.

Lemma picture_files_bind (f : string → list slide) (ok : string → bool)
    (l : list string) :
  Forall (λ x, picture_files (f x) = if ok x then [x] else []) l →
  picture_files (l ≫= f) = filter (λ x, ok x = true) l.
Proof.
  induction 1 as [|x l Hx _ IH]; [done|].
  rewrite bind_cons. unfold picture_files in *. rewrite omap_app, Hx, IH.
  rewrite filter_cons.
  destruct (ok x); [by rewrite decide_True|by rewrite decide_False].
Qed.

End Documents.

(** X12.  In the lossless mode, with every file present and the save
    succeeding, the document holds, in catalogue order, one page for each
    file that opens as an image: the page has the pixel size of the image
    and embeds the original file, or is left empty when the library
    refuses the file.  A file that does not open adds no page. *)
Theorem lossless_pages_in_order (w : world) (g : gui) (output_file : string)
    (size : Z) :
  pdf_quality_var g = "无损（推荐）" →
  Forall (λ p, is_Some (w_files w !! p)) (image_files g) →
  w_save w output_file = Some size →
  (convert_to_pdf w g output_file).2
  = Ok (omap (lossless_page w) (image_files g)).
Proof.
  intros Hmode Hpresent Hsave.
  destruct (convert_to_pdf_loop w g output_file Hpresent) as (tail_ & -> & _).
  rewrite Hsave, Hmode. cbn [snd]. f_equal.
  replace (pdf_settings "无损（推荐）").1 with "lossless" by done.
  rewrite <- bind_option_list. apply Forall_bind_ext, Forall_forall.
  intros p _. apply pdf_item_pages_lossless.
Qed.

Lemma lossless_pages_in_order_witness :
  (convert_to_pdf batch_second_rejected batch_gui "/p/out.pdf").2
  = Ok [Page 40 30 (Some (FromFile "/p/a.png"));
        Page 8 8 None;
        Page 10 20 (Some (FromFile "/p/c.png"))].
Proof.
  rewrite (lossless_pages_in_order batch_second_rejected batch_gui
             "/p/out.pdf" 1024).
  - reflexivity.
  - reflexivity.
  - repeat (constructor; [by eexists|]). constructor.
  - reflexivity.
Defined.

(** X13.  The closing report of the paged export gives as source size the
    sum of the sizes of all files of the batch, the skipped ones included,
    and as compression ratio [(1 - output/source) * 100], which is taken
    to be 0 when the source size is not positive. *)
Theorem pdf_report_counts_all_files (w : world) (g : gui)
    (output_file : string) (size : Z) :
  Forall (λ p, is_Some (w_files w !! p)) (image_files g) →
  w_save w output_file = Some size →
  let total := foldr Z.add 0%Z (file_size w <$> image_files g) in
  ∃ trace,
    (convert_to_pdf w g output_file).1
    = trace ++ [EvLog LogPdfSaving; EvLog LogPdfDone;
                EvLog (LogPdfSourceSize total); EvLog (LogPdfSize size);
                EvLog (LogPdfRatio (compression_ratio size total))]
    ∧ ((total ≤ 0)%Z → compression_ratio size total = 0%Q)
    ∧ ((0 < total)%Z →
       compression_ratio size total
       = ((1 - inject_Z size / inject_Z total) * 100)%Q).
Proof.
  intros Hpresent Hsave total.
  rewrite convert_to_pdf_trace, Hsave by done.
  assert (foldr Z.add 0%Z (pdf_item_size w <$> image_files g) = total) as ->.
  { unfold total. f_equal. apply list_fmap_ext. intros _ p _.
    apply pdf_item_size_file_size. }
  eexists. split_and!.
  - cbn zeta. by rewrite app_assoc.
  - intros Hle. unfold compression_ratio.
    by rewrite (proj2 (Z.ltb_ge 0 total)).
  - intros Hlt. unfold compression_ratio.
    by rewrite (proj2 (Z.ltb_lt 0 total)).
Qed.

Lemma pdf_report_counts_all_files_witness :
  ∃ trace,
    (convert_to_pdf batch_second_unreadable batch_gui "/p/out.pdf").1
    = trace ++ [EvLog LogPdfSaving; EvLog LogPdfDone;
                EvLog (LogPdfSourceSize 220); EvLog (LogPdfSize 1024);
                EvLog (LogPdfRatio (compression_ratio 1024 220))].
Proof.
  destruct (pdf_report_counts_all_files batch_second_unreadable batch_gui
              "/p/out.pdf" 1024) as (trace & Htrace & _).
  - repeat (constructor; [by eexists|]). constructor.
  - reflexivity.
  - exists trace. exact Htrace.
Defined.

(** X14.  With every file present and the save succeeding, the deck has
    one slide for each file that opens as an image, whether or not the
    picture could be put on it; the pictures on the slides are, in
    catalogue order, those of the files that also pass the insertion; and
    the closing log line gives the number of files of the batch as the
    number of slides. *)
Theorem deck_slides_and_report (w : world) (g : gui) (output_file : string)
    (size : Z) :
  Forall (λ p, file_ready w p = true) (image_files g) →
  w_save w output_file = Some size →
  ∃ trace slides,
    convert_to_ppt w g output_file = (trace, Ok slides)
    ∧ length slides
      = length (filter (λ p, opens w p = true) (image_files g))
    ∧ picture_files slides
      = filter (λ p, ppt_entry_ok w p = true) (image_files g)
    ∧ last trace = Some (EvLog (LogPptSize size))
    ∧ EvLog (LogPptSlides (length (image_files g))) ∈ trace.
Proof.
  intros Hready Hsave.
  destruct (convert_to_ppt_loop w g output_file Hready)
    as (tail_ & Hrun & _ & Htail).
  rewrite Hsave in Hrun. rewrite (Htail size Hsave) in Hrun.
  do 2 eexists. split; [exact Hrun|]. split_and!.
  - apply bind_filter_length.
    eapply Forall_impl; [exact Hready|]. intros p Hp.
    by apply ppt_item_slides_length.
  - apply picture_files_bind.
    eapply Forall_impl; [exact Hready|]. intros p Hp.
    by apply ppt_item_slides_pictures.
  - by rewrite app_assoc, last_app.
  - rewrite !elem_of_app, !elem_of_cons. naive_solver.
Qed.

Lemma deck_slides_and_report_witness :
  ∃ trace slides,
    convert_to_ppt batch_second_unreadable batch_gui "/p/out.pptx"
    = (trace, Ok slides)
    ∧ length slides = 2%nat
    ∧ EvLog (LogPptSlides 3) ∈ trace.
Proof.
  destruct (deck_slides_and_report batch_second_unreadable batch_gui
              "/p/out.pptx" 1024)
    as (trace & slides & Hrun & Hlen & _ & _ & Hreport).
  - repeat (constructor; [reflexivity|]). constructor.
  - reflexivity.
  - exists trace, slides. split; [exact Hrun|]. split; [exact Hlen|exact Hreport].
Defined.

Section Geometry.

Lemma py_int_half (x : Z) : py_int (inject_Z x / 2) = Z.quot x 2.
Proof.
  unfold py_int, Qdiv, Qmult, Qinv, inject_Z. simpl. by rewrite Z.mul_1_r.
Qed.

Lemma quot_2_bounds (x : Z) : (x - 1 ≤ 2 * Z.quot x 2 ≤ x + 1)%Z.
Proof.
  pose proof (Z.quot_rem' x 2) as Hqr.
  destruct (Z.le_ge_cases 0 x) as [Hpos|Hneg].
  - pose proof (Z.rem_bound_pos x 2 Hpos ltac:(lia)). lia.
  - pose proof (Z.rem_bound_pos_neg x 2 ltac:(lia) Hneg). lia.
Qed.

End Geometry.






